(** * The $HOPE redistribution bot: a shallow embedding and its properties

    The development follows the TypeScript sources of the bot
    ([config.ts], [holders.ts], [fees.ts], [swap.ts], [distribute.ts],
    [index.ts]).

    Conventions of the embedding:
    - a JavaScript [number] that carries an amount (SOL, token units, a
      price, a PnL) is an exact rational [Q]; a [number] that counts
      cycles or lamports and a [bigint] are integers [Z]. The rationals
      carry no rounding: a value that sits exactly on a threshold of
      the code may fall on the other side of it in binary64, the
      numbers JavaScript computes with. The arithmetic that meets a
      threshold is therefore also given over binary64, to check the
      worked example and to record where the two part;
    - [Map<string, number>] is a [gmap string Z];
    - a promise that rejects / a statement that throws is the [Throw]
      constructor of [result]; [try { .. } catch] is a match on it;
    - every answer of the outside world (ledger RPC, price API, Jupiter)
      is read from an oracle record, every transaction handed to the
      ledger is appended to a trace. *)

From Stdlib Require Import ZArith QArith Qminmax Qround String List Lia.
From Stdlib Require Import Bool Sorted PrimFloat Lqa.
From stdpp Require Import gmap strings.
Import ListNotations.

Local Open Scope string_scope.
Local Open Scope Z_scope.

(** ** Results of fallible code *)

Inductive result (A : Type) : Type :=
| Ok (a : A)
| Throw (msg : string).
Arguments Ok {A} a.
Arguments Throw {A} msg.

(** ** Numbers *)

Definition Qltb (a b : Q) : bool := negb (Qle_bool b a).

(** ** config.ts *)

Inductive BurnMethod := spl | dead_wallet.

Record Config := {
  TOKEN_MINT : string;
  MIN_FEE_SOL : Q;
  BURN_METHOD : BurnMethod;
  DEAD_WALLET : string
}.

(** The values [CONFIG] takes when the environment sets none of them. *)
Definition default_config (mint : string) : Config := {|
  TOKEN_MINT := mint;
  MIN_FEE_SOL := 5 # 1000;
  BURN_METHOD := spl;
  DEAD_WALLET := "1nc1nerator11111111111111111111111111111111"
|}.

(** ** holders.ts: winner cooldown *)

Module Cooldown.

Definition COOLDOWN_CYCLES : Z := 2.

(** [recentWinners.set(wallet, cycle)] *)
Definition recordWinner (recentWinners : gmap string Z)
    (wallet : string) (cycle : Z) : gmap string Z :=
  <[wallet := cycle]> recentWinners.

(** [!wonAt] on a number-or-undefined: true for [undefined] and for 0. *)
Definition falsy (wonAt : option Z) : bool :=
  match wonAt with
  | None => true
  | Some n => n =? 0
  end.

Definition isOnCooldown (recentWinners : gmap string Z)
    (wallet : string) (currentCycle : Z) : bool :=
  let wonAt := recentWinners !! wallet in
  if falsy wonAt then false
  else match wonAt with
       | Some w => currentCycle - w <=? COOLDOWN_CYCLES
       | None => false
       end.

End Cooldown.
Export Cooldown.

(** ** distribute.ts: the 50/50 split

    The first two lines of [distribute]. [totalRaw / 2n] is BigInt
    division, which truncates toward zero: [Z.quot]. *)

Definition split (totalRaw : Z) : Z * Z :=
  let toSend := Z.quot totalRaw 2 in
  let toBurn := totalRaw - toSend in
  (toSend, toBurn).

(** ** holders.ts: what the ledger and the price API answer *)

(** One entry of [meta.preTokenBalances] / [meta.postTokenBalances];
    [uiAmount] is nullable. *)
Record TokenBalance := {
  tb_mint : string;
  tb_owner : string;
  tb_uiAmount : option Q
}.

(** A parsed transaction with its [meta]; balances are in lamports. A
    missing [preBalances] or an index outside it reads as [undefined],
    which [?? 0] turns into 0: the default of [nth]. *)
Record ParsedTransaction := {
  accountKeys : list string;
  preBalances : list Z;
  postBalances : list Z;
  preTokenBalances : option (list TokenBalance);
  postTokenBalances : option (list TokenBalance)
}.

(** [info.tokenAmount] with its two strings already read as numbers. *)
Record TokenAmount := {
  uiAmountString : Q;
  amount : Z
}.

Record AccountInfo := {
  owner : string;
  tokenAmount : option TokenAmount
}.

Record ProgramAccount := {
  pubkey : string;
  info : option AccountInfo
}.

(** The read-only collaborators of the ranker. [priceResponse] is the
    fetch of the Jupiter price: it throws, or the price field is absent
    ([None]), or it holds a number. [getParsedTransaction] answers [None]
    for a transaction without [meta]. *)
Record Connection := {
  getParsedProgramAccounts : result (list ProgramAccount);
  getSignaturesForAddress : string -> result (list string);
  getParsedTransaction : string -> result (option ParsedTransaction);
  priceResponse : result (option Q)
}.

Record Holder := {
  wallet : string;
  ata : string;
  balance : Q;
  balanceRaw : Z;
  costBasis : Q;
  currentValue : Q;
  pnl : Q;
  swapBought : Q;
  retainedRatio : Q
}.

Definition GAS_THRESHOLD : Q := 1 # 1000.
Definition MIN_VALUE_SOL : Q := 1 # 1000.

Definition EXCLUDED : gset string :=
  {[ "11111111111111111111111111111111";
     "TokenkegQfeZyiNwAJbNbGKPFXCWuBvf9Ss623VQ5DA";
     "ATokenGPvbdGVxr1b2hvZbsiqW5xWH25efTNsLJA8knL";
     "1nc1nerator11111111111111111111111111111111";
     "5Q544fKrFoe6tsEbD7S8EmxGTJYAKtTVhAW5Q5pge4j1";
     "6EF8rrecthR5Dkzon8Nwu78hRvfCKubJ14M5uBEwF6P" ]}.

(** [getPrice]: [parseFloat(price || "0")], and 0 when the fetch throws. *)
Definition getPrice (conn : Connection) : Q :=
  match priceResponse conn with
  | Ok (Some price) => price
  | Ok None => 0
  | Throw _ => 0
  end.

(** *** Swap-only history *)

Record SwapHistory := {
  totalSolSpent : Q;
  totalTokensBought : Q
}.

(** [balances?.filter(b => b.mint === mint && b.owner === owner) ?? []]
    followed by [[0]?.uiTokenAmount?.uiAmount ?? 0]. *)
Definition tokenBal (bals : option (list TokenBalance))
    (owner mint : string) : Q :=
  let matching :=
    List.filter
      (fun b => String.eqb (tb_mint b) mint && String.eqb (tb_owner b) owner)
      (default [] bals) in
  match matching with
  | b :: _ => default 0%Q (tb_uiAmount b)
  | [] => 0%Q
  end.

(** The loop that looks the owner up in [accountKeys]: the first index
    holding the owner, and 0 when there is none. *)
Fixpoint ownerIndex (owner : string) (keys : list string) (i : nat) : nat :=
  match keys with
  | [] => O
  | k :: keys' =>
      if String.eqb k owner then i else ownerIndex owner keys' (S i)
  end.

Definition tokenDelta (tx : ParsedTransaction) (owner mint : string) : Q :=
  (tokenBal (postTokenBalances tx) owner mint
   - tokenBal (preTokenBalances tx) owner mint)%Q.

Definition solSpent (tx : ParsedTransaction) (owner : string) : Q :=
  let idx := ownerIndex owner (accountKeys tx) O in
  let preSOL := (inject_Z (nth idx (preBalances tx) 0%Z) / 1000000000)%Q in
  let postSOL := (inject_Z (nth idx (postBalances tx) 0%Z) / 1000000000)%Q in
  (preSOL - postSOL)%Q.

(** The body of [for (const sig of signatures)]: the accumulators are
    left alone by every [continue]. *)
Definition swapStep (conn : Connection) (owner mint : string)
    (acc : SwapHistory) (sig : string) : SwapHistory :=
  match getParsedTransaction conn sig with
  | Throw _ => acc
  | Ok None => acc
  | Ok (Some tx) =>
      let td := tokenDelta tx owner mint in
      if Qle_bool td 0 then acc
      else
        let spent := solSpent tx owner in
        if Qltb GAS_THRESHOLD spent then
          {| totalSolSpent := (totalSolSpent acc + spent)%Q;
             totalTokensBought := (totalTokensBought acc + td)%Q |}
        else acc
  end.

Definition noHistory : SwapHistory :=
  {| totalSolSpent := 0; totalTokensBought := 0 |}.

(** [getSignaturesForAddress(owner, { limit: 30 })]: at most 30 entries
    are looked at; a failure of that call leaves both totals at 0. *)
Definition getSwapHistory (conn : Connection) (owner mint : string)
    : SwapHistory :=
  match getSignaturesForAddress conn owner with
  | Throw _ => noHistory
  | Ok signatures =>
      fold_left (swapStep conn owner mint) (firstn 30 signatures) noHistory
  end.

(** *** Array.prototype.sort

    The sort is the engine's: ECMAScript requires it to be stable and,
    under a consistent comparator, to order the array. It is modelled by
    the stable insertion sort driven by the sign of the comparator: [x]
    moves behind [y] exactly when [comparefn(x, y) > 0]. *)

Section ArraySort.
Context {A : Type} (comparefn : A -> A -> Q).

Fixpoint sortInsert (x : A) (l : list A) : list A :=
  match l with
  | [] => [x]
  | y :: l' =>
      if Qltb 0 (comparefn x y) then y :: sortInsert x l'
      else x :: y :: l'
  end.

Definition arraySort (l : list A) : list A :=
  fold_right sortInsert [] l.
End ArraySort.

(** *** getHolders *)

(** The derived fields pushed for one account that passed the guards. *)
Definition mkHolder (acct : string) (own : string) (bal : Q) (raw : Z)
    (hist : SwapHistory) (price : Q) : Holder :=
  let retained := Qmin 1 (bal / totalTokensBought hist) in
  let effectiveBalance := Qmin bal (totalTokensBought hist) in
  let adjustedCostBasis := (totalSolSpent hist * retained)%Q in
  let value := (effectiveBalance * price)%Q in
  {| wallet := own;
     ata := acct;
     balance := bal;
     balanceRaw := raw;
     costBasis := adjustedCostBasis;
     currentValue := value;
     pnl := (value - adjustedCostBasis)%Q;
     swapBought := totalTokensBought hist;
     retainedRatio := retained |}.

(** The same lines over binary64. [Math.min] answers NaN as soon as one
    argument is NaN and takes -0 to be below +0. *)
Definition Math_min (a b : float) : float :=
  if is_nan a || is_nan b then nan
  else if PrimFloat.ltb a b then a
  else if PrimFloat.ltb b a then b
  else if get_sign a then a else b.

Record Derived64 := {
  retainedRatio64 : float;
  effectiveBalance64 : float;
  adjustedCostBasis64 : float;
  currentValue64 : float;
  pnl64 : float
}.

Definition derived64 (bal totalTokensBought totalSolSpent price : float)
    : Derived64 :=
  let retained := Math_min 1%float (PrimFloat.div bal totalTokensBought) in
  let effectiveBalance := Math_min bal totalTokensBought in
  let adjustedCostBasis := PrimFloat.mul totalSolSpent retained in
  let value := PrimFloat.mul effectiveBalance price in
  {| retainedRatio64 := retained;
     effectiveBalance64 := effectiveBalance;
     adjustedCostBasis64 := adjustedCostBasis;
     currentValue64 := value;
     pnl64 := PrimFloat.sub value adjustedCostBasis |}.

(** The body of [for (const account of accounts)]: [None] for each
    [continue], the pushed record otherwise. *)
Definition scanAccount (conn : Connection) (mint botWallet : string)
    (price : Q) (account : ProgramAccount) : option Holder :=
  match info account with
  | None => None
  | Some i =>
      let own := owner i in
      let bal := match tokenAmount i with
                 | Some t => uiAmountString t
                 | None => 0%Q
                 end in
      let raw := match tokenAmount i with
                 | Some t => amount t
                 | None => 0
                 end in
      if Qle_bool bal 0 || bool_decide (own ∈ EXCLUDED)
         || String.eqb own botWallet
      then None
      else
        let hist := getSwapHistory conn own mint in
        if Qle_bool (totalTokensBought hist) 0
           || Qle_bool (totalSolSpent hist) 0
        then None
        else Some (mkHolder (pubkey account) own bal raw hist price)
  end.

(** The callback of [holders.filter]. *)
Definition isEligible (recentWinners : gmap string Z)
    (currentCycle : option Z) (h : Holder) : bool :=
  if Qltb (currentValue h) MIN_VALUE_SOL then false
  else match currentCycle with
       | Some c => negb (isOnCooldown recentWinners (wallet h) c)
       | None => true
       end.

(** The comparator [(a, b) => a.pnl - b.pnl]. *)
Definition byPnl (a b : Holder) : Q := (pnl a - pnl b)%Q.

(** The array [holders] once the scan loop is over, in scan order. *)
Definition scanHolders (conn : Connection) (mint botWallet : string)
    (price : Q) (accounts : list ProgramAccount) : list Holder :=
  omap (scanAccount conn mint botWallet price) accounts.

(** [getHolders(conn, currentCycle)]. [botWallet] is the address derived
    from the configured key (the empty string when that fails);
    [recentWinners] is the module-level cooldown map, only read here. *)
Definition getHolders (cfg : Config) (botWallet : string)
    (recentWinners : gmap string Z) (conn : Connection)
    (currentCycle : option Z) : result (list Holder) :=
  match getParsedProgramAccounts conn with
  | Throw e => Throw e
  | Ok accounts =>
      let price := getPrice conn in
      let holders :=
        scanHolders conn (TOKEN_MINT cfg) botWallet price accounts in
      let eligible :=
        List.filter (isEligible recentWinners currentCycle) holders in
      Ok (arraySort byPnl eligible)
  end.

(** ** Effects: the bot's globals and the transactions it submits *)

Inductive Instruction :=
| IxWithdraw
| IxSwap (lamports : Z)
| IxCreateATA (walletOwner : string)
| IxTransfer (dest : string) (amount : Z)
| IxBurn (amount : Z).

(** One transaction handed to the ledger, and whether the call that
    sends and confirms it returned ([true]) or threw ([false]). *)
Record Submission := {
  instructions : list Instruction;
  confirmed : bool
}.

Record LastRecipient := {
  lr_wallet : string;
  lr_amount : Q;
  lr_burnTx : string
}.

(** The module-level variables of [index.ts] and [holders.ts], and the
    transactions submitted so far, oldest first. *)
Record World := {
  cycleCount : Z;
  recentWinners : gmap string Z;
  lastRecipient : option LastRecipient;
  submitted : list Submission
}.

Definition M (A : Type) : Type := World -> result A * World.

Definition ret {A} (a : A) : M A := fun w => (Ok a, w).

Definition throw {A} (msg : string) : M A := fun w => (Throw msg, w).

Definition bind {A B} (m : M A) (k : A -> M B) : M B :=
  fun w =>
    match m w with
    | (Ok a, w') => k a w'
    | (Throw e, w') => (Throw e, w')
    end.

Definition tryCatch {A} (m : M A) (handler : string -> M A) : M A :=
  fun w =>
    match m w with
    | (Ok a, w') => (Ok a, w')
    | (Throw e, w') => handler e w'
    end.

Notation "x <- m ;; k" := (bind m (fun x => k))
  (at level 100, m at next level, right associativity).
Notation "m ;;; k" := (bind m (fun _ => k))
  (at level 100, right associativity).

(** An answer of the outside world, read without touching the state. *)
Definition await {A} (r : result A) : M A := fun w => (r, w).

(** Send a transaction and wait for its confirmation: the transaction is
    logged with the outcome, and the outcome is the result. *)
Definition sendAndConfirm (ixs : list Instruction) (outcome : result string)
    : M string :=
  fun w =>
    let ok := match outcome with Ok _ => true | Throw _ => false end in
    (outcome,
     {| cycleCount := cycleCount w;
        recentWinners := recentWinners w;
        lastRecipient := lastRecipient w;
        submitted :=
          submitted w ++ [{| instructions := ixs; confirmed := ok |}] |}).

(** The answers to the calls of [fees.ts], [swap.ts] and [distribute.ts]. *)
Record CurveAccount := {
  lamports : Z;
  dataLength : Z
}.

Record Cluster := {
  (* fees.ts *)
  bondingCurveProbe : result (option CurveAccount);
  bondingCurveInfo : result (option CurveAccount);
  withdrawOutcome : result string;
  getBalance : result Z;
  (* swap.ts: the quote for an amount of lamports ([None]: no
     [outAmount]), whether a swap transaction came back, its outcome *)
  quoteOutAmount : Z -> result (option Z);
  swapTransaction : result bool;
  swapOutcome : result string;
  (* distribute.ts *)
  mintDecimals : result (option Z);
  recipientAccountExists : bool;
  deadAccountExists : bool;
  sendOutcome : result string;
  burnOutcome : result string
}.

(** ** fees.ts *)

Definition RESERVE_SOL : Q := 1 # 100.
Definition LAMPORTS_PER_SOL : Q := 1000000000.

Definition isOnBondingCurve (net : Cluster) : bool :=
  match bondingCurveProbe net with
  | Ok (Some accountInfo) => 0 <? dataLength accountInfo
  | Ok None => false
  | Throw _ => false
  end.

Definition withdrawPumpFunFees (net : Cluster) : M Q :=
  tryCatch
    (bondingCurveInfo <- await (bondingCurveInfo net) ;;
     match bondingCurveInfo with
     | None => ret 0%Q
     | Some a =>
         let bondingCurveBalance :=
           (inject_Z (lamports a) / LAMPORTS_PER_SOL)%Q in
         if Qltb bondingCurveBalance (1 # 1000) then ret 0%Q
         else
           sendAndConfirm [IxWithdraw] (withdrawOutcome net) ;;;
           newBalance <- await (getBalance net) ;;
           ret (Qmax 0 (inject_Z newBalance / LAMPORTS_PER_SOL - RESERVE_SOL))
     end)
    (fun _ => ret 0%Q).

Definition claimFees (cfg : Config) (net : Cluster) : M Q :=
  if isOnBondingCurve net then withdrawPumpFunFees net
  else
    balance <- await (getBalance net) ;;
    let balanceSOL := (inject_Z balance / LAMPORTS_PER_SOL)%Q in
    let available := Qmax 0 (balanceSOL - RESERVE_SOL) in
    if Qltb available (MIN_FEE_SOL cfg) then ret 0%Q
    else ret available.

(** ** swap.ts *)

Definition buyTokens (net : Cluster) (solAmount : Q) : M Z :=
  let lamports := Qfloor (solAmount * LAMPORTS_PER_SOL) in
  quote <- await (quoteOutAmount net lamports) ;;
  match quote with
  | None => throw "Jupiter returned no output amount - possibly no liquidity"
  | Some outputAmount =>
      if outputAmount =? 0
      then throw "Zero output amount - no liquidity available"
      else
        swapTx <- await (swapTransaction net) ;;
        if negb swapTx
        then throw "No swap transaction returned from Jupiter"
        else
          sendAndConfirm [IxSwap lamports] (swapOutcome net) ;;;
          ret outputAmount
  end.

(** ** distribute.ts *)

Definition getDecimals (net : Cluster) : Z :=
  match mintDecimals net with
  | Ok (Some d) => d
  | Ok None => 6
  | Throw _ => 6
  end.

Definition distribute (cfg : Config) (net : Cluster)
    (recipientWallet : string) (totalRaw : Z) : M (string * string) :=
  let toSend := fst (split totalRaw) in
  let toBurn := snd (split totalRaw) in
  let tx1 :=
    ((if recipientAccountExists net then []
      else [IxCreateATA recipientWallet])
     ++ [IxTransfer recipientWallet toSend])%list in
  txSend <- sendAndConfirm tx1 (sendOutcome net) ;;
  txBurn <-
    match BURN_METHOD cfg with
    | dead_wallet =>
        let tx2 :=
          ((if deadAccountExists net then []
            else [IxCreateATA (DEAD_WALLET cfg)])
           ++ [IxTransfer (DEAD_WALLET cfg) toBurn])%list in
        sendAndConfirm tx2 (burnOutcome net)
    | spl => sendAndConfirm [IxBurn toBurn] (burnOutcome net)
    end ;;
  ret (txSend, txBurn).

(** ** index.ts *)

(** How a cycle ended: the log line that closes it. *)
Inductive Outcome :=
| NoHolders
| EveryoneInProfit
| NoFees
| ZeroTokens
| CycleComplete (recipient : string)
| CycleFailed (msg : string).

Definition getCycleCount : M Z := fun w => (Ok (cycleCount w), w).

Definition incrCycleCount : M unit :=
  fun w =>
    (Ok tt,
     {| cycleCount := cycleCount w + 1;
        recentWinners := recentWinners w;
        lastRecipient := lastRecipient w;
        submitted := submitted w |}).

Definition setLastRecipient (r : LastRecipient) : M unit :=
  fun w =>
    (Ok tt,
     {| cycleCount := cycleCount w;
        recentWinners := recentWinners w;
        lastRecipient := Some r;
        submitted := submitted w |}).

(** [recordWinner] acting on the module-level map. *)
Definition recordWinnerM (wallet : string) (cycle : Z) : M unit :=
  fun w =>
    (Ok tt,
     {| cycleCount := cycleCount w;
        recentWinners := recordWinner (recentWinners w) wallet cycle;
        lastRecipient := lastRecipient w;
        submitted := submitted w |}).

(** [getHolders] reading the module-level map. *)
Definition getHoldersM (cfg : Config) (botWallet : string)
    (conn : Connection) (currentCycle : Z) : M (list Holder) :=
  fun w =>
    (getHolders cfg botWallet (recentWinners w) conn (Some currentCycle), w).

Definition runCycle (cfg : Config) (botWallet : string)
    (conn : Connection) (net : Cluster) : M Outcome :=
  incrCycleCount ;;;
  tryCatch
    (cycle <- getCycleCount ;;
     holders <- getHoldersM cfg botWallet conn cycle ;;
     match holders with
     | [] => ret NoHolders
     | topLoser :: _ =>
         if Qle_bool 0 (pnl topLoser) then ret EveryoneInProfit
         else
           solAvailable <- claimFees cfg net ;;
           if Qle_bool solAvailable 0 then ret NoFees
           else
             tokensReceived <- buyTokens net solAvailable ;;
             if tokensReceived =? 0 then ret ZeroTokens
             else
               let decimals := getDecimals net in
               tx <- distribute cfg net (wallet topLoser) tokensReceived ;;
               let halfAmount :=
                 (inject_Z (Z.quot tokensReceived 2)
                  / Qpower (inject_Z 10) decimals)%Q in
               setLastRecipient
                 {| lr_wallet := wallet topLoser;
                    lr_amount := halfAmount;
                    lr_burnTx := snd tx |} ;;;
               cycle' <- getCycleCount ;;
               recordWinnerM (wallet topLoser) cycle' ;;;
               ret (CycleComplete (wallet topLoser))
     end)
    (fun e => ret (CycleFailed e)).

(** The scheduler: one cycle after the other, each against what the
    outside world answers at that time. *)
Definition runCycles (cfg : Config) (botWallet : string)
    (ticks : list (Connection * Cluster)) (w : World) : World :=
  fold_left
    (fun w tick => snd (runCycle cfg botWallet (fst tick) (snd tick) w))
    ticks w.

(** * Predicates used in the statements *)

(** A list in ascending order of [key]. *)
Definition ascending {A : Type} (key : A -> Q) : list A -> Prop :=
  StronglySorted (fun a b => (key a <= key b)%Q).

(** The elements carrying one given key, in the order of the list: a
    sort is stable when it leaves each of these sublists as it was. *)
Definition withKey {A : Type} (key : A -> Q) (p : Q) (l : list A) : list A :=
  List.filter (fun a => Qeq_bool (key a) p) l.

(** The exchange-rate source gives no usable price: the fetch throws,
    or the price field is absent, or it holds zero. *)
Definition priceUnavailable (conn : Connection) : Prop :=
  match priceResponse conn with
  | Ok (Some price) => (price == 0)%Q
  | Ok None => True
  | Throw _ => True
  end.

(** The least that "with the price at 0 the output ranks the eligible
    holders, the biggest spender first" asks for: as soon as the scan
    kept a holder that is not on cooldown, the output has a first
    element, and that element spent at least as much as this holder. *)
Definition degradesToSpenderRanking (cfg : Config) (bot : string)
    (m : gmap string Z) (conn : Connection) (c : Z)
    (accounts : list ProgramAccount) : Prop :=
  exists hs,
    getHolders cfg bot m conn (Some c) = Ok hs /\
    forall h,
      In h (scanHolders conn (TOKEN_MINT cfg) bot (getPrice conn) accounts) ->
      isOnCooldown m (wallet h) c = false ->
      exists top rest,
        hs = top :: rest /\ (costBasis h <= costBasis top)%Q.

(** The shapes of the transactions the bot submits. *)
Definition isWithdrawTx (s : Submission) : Prop :=
  instructions s = [IxWithdraw].

Definition isSwapTx (s : Submission) : Prop :=
  exists lamports, instructions s = [IxSwap lamports].

(** The transfer of [amount] to the recipient, with or without the
    creation of the recipient's token account in front. *)
Definition isSendTx (recipient : string) (amount : Z) (s : Submission)
    : Prop :=
  instructions s = [IxTransfer recipient amount]
  \/ instructions s = [IxCreateATA recipient; IxTransfer recipient amount].

(** The destruction of [amount] by the configured method. *)
Definition isBurnTx (cfg : Config) (amount : Z) (s : Submission) : Prop :=
  match BURN_METHOD cfg with
  | spl => instructions s = [IxBurn amount]
  | dead_wallet => isSendTx (DEAD_WALLET cfg) amount s
  end.

(** Tokens that left the operator's token account: the amounts of the
    transfers and burns of the confirmed transactions. *)
Definition ixTokens (ix : Instruction) : Z :=
  match ix with
  | IxTransfer _ amount => amount
  | IxBurn amount => amount
  | _ => 0
  end.

Definition tokensOut (subs : list Submission) : Z :=
  fold_right
    (fun s acc =>
       (if confirmed s
        then fold_right (fun ix n => ixTokens ix + n) 0 (instructions s)
        else 0) + acc)
    0 subs.

(** [w'] differs from [w] by transactions that all satisfy [P]: the
    globals are as they were. *)
Record frame (P : Submission -> Prop) (w w' : World) : Prop := {
  frame_cycle : cycleCount w' = cycleCount w;
  frame_winners : recentWinners w' = recentWinners w;
  frame_last : lastRecipient w' = lastRecipient w;
  frame_new :
    exists new, submitted w' = (submitted w ++ new)%list /\ Forall P new
}.

(** Every run of [m] leaves the globals alone and submits only
    transactions that satisfy [P]. *)
Definition framed {A : Type} (P : Submission -> Prop) (m : M A) : Prop :=
  forall w r w', m w = (r, w') -> frame P w w'.

(** What [distribute] leaves in the log for a recipient and a total: the
    send, and behind it, only if the send was confirmed, the burn. *)
Definition distributeLog (cfg : Config) (net : Cluster) (recipient : string)
    (total : Z) (log : list Submission) : Prop :=
  exists s1,
    isSendTx recipient (fst (split total)) s1 /\
    match sendOutcome net with
    | Throw _ => log = [s1] /\ confirmed s1 = false
    | Ok _ =>
        confirmed s1 = true /\
        exists s2,
          log = [s1; s2] /\
          isBurnTx cfg (snd (split total)) s2 /\
          confirmed s2 = match burnOutcome net with
                         | Ok _ => true
                         | Throw _ => false
                         end
    end.

(** The transactions a cycle may submit before it distributes. *)
Definition isClaimOrSwapTx (s : Submission) : Prop :=
  isWithdrawTx s \/ isSwapTx s.

(** How the world [w'] and the outcome [out] of a cycle relate to the
    world [w] it started in. The counter went up by one. Either the cycle
    ended before the distribution: it did not complete, and the cooldown
    map and the last recipient are as they were; or it entered the
    distribution, whose two outcomes decide: both confirmed, the cycle
    completed and the recipient is recorded as winner of this cycle; one
    failed, the cycle failed and the cooldown map is as it was. *)
Definition cycleEnd (cfg : Config) (net : Cluster) (w : World)
    (out : Outcome) (w' : World) : Prop :=
  exists pre,
    cycleCount w' = cycleCount w + 1 /\
    Forall isClaimOrSwapTx pre /\
    (((forall r, out <> CycleComplete r) /\
      recentWinners w' = recentWinners w /\
      lastRecipient w' = lastRecipient w /\
      submitted w' = (submitted w ++ pre)%list)
     \/
     (exists recipient total log,
        distributeLog cfg net recipient total log /\
        submitted w' = (submitted w ++ pre ++ log)%list /\
        match sendOutcome net, burnOutcome net with
        | Ok _, Ok _ =>
            out = CycleComplete recipient /\
            recentWinners w' =
            recordWinner (recentWinners w) recipient (cycleCount w + 1)
        | Ok _, Throw e | Throw e, _ =>
            out = CycleFailed e /\
            recentWinners w' = recentWinners w /\
            lastRecipient w' = lastRecipient w
        end)).

(** The cycle numbers in the cooldown map are those of cycles already
    run, which are numbered from 1. *)
Definition winsInPast (w : World) : Prop :=
  0 <= cycleCount w /\
  forall a k, recentWinners w !! a = Some k -> 1 <= k <= cycleCount w.

(** * A sample ledger *)

Definition sampleMint : string := "HopeMint11111111111111111111111111111111111".

Definition sampleConfig : Config := default_config sampleMint.

Definition tokenAccount (acct own : string) (ui : Q) (raw : Z)
    : ProgramAccount :=
  {| pubkey := acct;
     info := Some {| owner := own;
                     tokenAmount := Some {| uiAmountString := ui;
                                            amount := raw |} |} |}.

(** A purchase: the buyer's token balance goes from nothing to [tokens]
    and the buyer pays [paid] lamports to the pool. *)
Definition purchaseTx (buyer : string) (tokens : Q) (paid : Z)
    : ParsedTransaction :=
  {| accountKeys := [buyer; "pool"];
     preBalances := [100000000000; 0];
     postBalances := [100000000000 - paid; paid];
     preTokenBalances := Some [];
     postTokenBalances :=
       Some [{| tb_mint := sampleMint; tb_owner := buyer;
                tb_uiAmount := Some tokens |}] |}.

(** A transfer in: the sender pays the network fee only. *)
Definition transferInTx (sender receiver : string) (tokens : Q)
    : ParsedTransaction :=
  {| accountKeys := [sender; receiver];
     preBalances := [1000000000; 1000000000];
     postBalances := [999995000; 1000000000];
     preTokenBalances := Some [];
     postTokenBalances :=
       Some [{| tb_mint := sampleMint; tb_owner := receiver;
                tb_uiAmount := Some tokens |}] |}.

(** Four holders, in scan order: bob bought 800 for 10 SOL and holds
    1000; alice and erin each bought 1000 for 50 SOL and hold 300; carol
    holds 5000 that were transferred to her. *)
Definition sampleConn (price : result (option Q)) : Connection :=
  {| getParsedProgramAccounts :=
       Ok [ tokenAccount "ataBob" "bob" 1000 1000000000;
            tokenAccount "ataAlice" "alice" 300 300000000;
            tokenAccount "ataCarol" "carol" 5000 5000000000;
            tokenAccount "ataErin" "erin" 300 300000000 ];
     getSignaturesForAddress := fun own =>
       if String.eqb own "bob" then Ok ["sigBob"]
       else if String.eqb own "alice" then Ok ["sigAlice"]
       else if String.eqb own "carol" then Ok ["sigCarol"]
       else if String.eqb own "erin" then Ok ["sigErin"]
       else Throw "unknown address";
     getParsedTransaction := fun sig =>
       if String.eqb sig "sigBob"
       then Ok (Some (purchaseTx "bob" 800 10000000000))
       else if String.eqb sig "sigAlice"
       then Ok (Some (purchaseTx "alice" 1000 50000000000))
       else if String.eqb sig "sigCarol"
       then Ok (Some (transferInTx "dave" "carol" 5000))
       else if String.eqb sig "sigErin"
       then Ok (Some (purchaseTx "erin" 1000 50000000000))
       else Ok None;
     priceResponse := price |}.



(** The bot as it starts: no cycle run, no winner, nothing submitted. *)
Definition startWorld : World :=
  {| cycleCount := 0;
     recentWinners := ∅;
     lastRecipient := None;
     submitted := [] |}.

(** A cluster on which every call succeeds, but for the bonding-curve
    account, the operator's balance (in lamports) and the outcome of the
    transfer to the recipient, which are the parameters; the venue quotes
    1000 raw tokens per lamport. *)
Definition sampleNet (curve : option CurveAccount) (operatorLamports : Z)
    (send : result string) : Cluster :=
  {| bondingCurveProbe := Ok curve;
     bondingCurveInfo := Ok curve;
     withdrawOutcome := Ok "sigWithdraw";
     getBalance := Ok operatorLamports;
     quoteOutAmount := fun lamports => Ok (Some (lamports * 1000));
     swapTransaction := Ok true;
     swapOutcome := Ok "sigSwap";
     mintDecimals := Ok (Some 6);
     recipientAccountExists := true;
     deadAccountExists := true;
     sendOutcome := send;
     burnOutcome := Ok "sigBurn" |}.

(** * More of the sources *)

(** ** config.ts: validate

    [PRIVATE_KEY] is the one field of [CONFIG] the record above leaves
    out; an empty string is the only falsy string, and [.length] counts
    the characters of the string (both values are base58 text). *)
Definition validate (PRIVATE_KEY : string) (cfg : Config) : result unit :=
  if String.eqb PRIVATE_KEY ""
  then Throw "❌ PRIVATE_KEY is required in .env file"
  else if String.eqb (TOKEN_MINT cfg) ""
  then Throw "❌ TOKEN_MINT is required in .env file"
  else if Z.of_nat (String.length PRIVATE_KEY) <? 32
  then Throw "❌ PRIVATE_KEY looks invalid (too short)"
  else if Z.of_nat (String.length (TOKEN_MINT cfg)) <? 32
  then Throw "❌ TOKEN_MINT looks invalid (too short)"
  else Ok tt.

(** ** index.ts: getNextInterval

    [INTERVAL_SEC] and [JITTER_SEC] are the two integers [CONFIG] reads
    with [parseInt]; [random] is what [Math.random()] answered. *)
Definition getNextInterval (INTERVAL_SEC JITTER_SEC : Z) (random : Q) : Z :=
  let baseMs := INTERVAL_SEC * 1000 in
  let jitterMs := JITTER_SEC * 1000 in
  let randomJitter :=
    Qfloor (random * inject_Z jitterMs * 2) - jitterMs in
  baseMs + randomJitter.

(** ** holders.ts and fees.ts: the SOL arithmetic over binary64

    [solSpent] without the lookup of the index, and the usable amount
    both branches of the fee claimer compute, with the operations of
    the code on doubles. The literal 0.01 denotes the double
    0x1.47ae147ae147bp-7. *)
Definition solSpent64 (pre post : float) : float :=
  PrimFloat.sub (PrimFloat.div pre 1000000000)
    (PrimFloat.div post 1000000000).

Definition Math_max (a b : float) : float :=
  if is_nan a || is_nan b then nan
  else if PrimFloat.ltb a b then b
  else if PrimFloat.ltb b a then a
  else if get_sign a then b else a.

Definition available64 (balance : float) : float :=
  Math_max 0
    (PrimFloat.sub (PrimFloat.div balance 1000000000)
       0x1.47ae147ae147bp-7).

(** * Predicates used in the further statements *)

(** The transaction is a purchase as [swapStep] counts it. *)
Definition countsAsPurchase (conn : Connection) (own mint : string)
    (sig : string) : Prop :=
  exists tx,
    getParsedTransaction conn sig = Ok (Some tx) /\
    (0 < tokenDelta tx own mint)%Q /\
    (GAS_THRESHOLD < solSpent tx own)%Q.

(** The amount of tokens the instructions of one transaction move. *)
Definition txTokens (s : Submission) : Z :=
  fold_right (fun ix n => ixTokens ix + n) 0 (instructions s).

(** The lamports of the swaps a log holds. *)
Definition swapLamports (log : list Submission) : list Z :=
  flat_map
    (fun s =>
       flat_map (fun ix => match ix with
                           | IxSwap l => [l]
                           | _ => []
                           end) (instructions s))
    log.

(** * Properties *)

(** ** Comparisons on rationals *)

Lemma Qltb_lt a b : Qltb a b = true <-> (a < b)%Q.
Proof.
  unfold Qltb. rewrite negb_true_iff. split; intros H.
  - apply Qnot_le_lt. intros Hle. apply Qle_bool_iff in Hle. congruence.
  - destruct (Qle_bool b a) eqn:E; [|reflexivity].
    apply Qle_bool_iff in E. exfalso. exact (Qlt_not_le _ _ H E).
Qed.

Lemma Qltb_ge a b : Qltb a b = false <-> (b <= a)%Q.
Proof.
  unfold Qltb. rewrite negb_false_iff. apply Qle_bool_iff.
Qed.

Lemma Qle_bool_false a b : Qle_bool a b = false <-> (b < a)%Q.
Proof.
  rewrite <- Qltb_lt. unfold Qltb. rewrite negb_true_iff. reflexivity.
Qed.


(** ** The sort *)

Section ArraySortFacts.
Context {A : Type} (key : A -> Q).

Let cmp (a b : A) : Q := (key a - key b)%Q.

Lemma cmp_pos a b : Qltb 0 (cmp a b) = true <-> (key b < key a)%Q.
Proof.
  rewrite Qltb_lt. unfold cmp. split; intros H.
  - apply Qlt_minus_iff. exact H.
  - apply Qlt_minus_iff in H. exact H.
Qed.

Lemma cmp_nonpos a b : Qltb 0 (cmp a b) = false <-> (key a <= key b)%Q.
Proof.
  rewrite Qltb_ge. unfold cmp. split; intros H.
  - apply Qle_minus_iff. apply (Qopp_le_compat _ 0) in H.
    assert (E : (key b + - key a == - (key a - key b))%Q) by ring.
    rewrite E. exact H.
  - apply Qle_minus_iff in H. apply (Qopp_le_compat 0) in H.
    assert (E : (key a - key b == - (key b + - key a))%Q) by ring.
    rewrite E. exact H.
Qed.

Lemma sortInsert_perm x l : Permutation (sortInsert cmp x l) (x :: l).
Proof.
  induction l as [|y l IH]; simpl; [reflexivity|].
  destruct (Qltb 0 (cmp x y)); [|reflexivity].
  rewrite IH. apply perm_swap.
Qed.

Lemma arraySort_perm l : Permutation (arraySort cmp l) l.
Proof.
  induction l as [|x l IH]; simpl; [reflexivity|].
  rewrite sortInsert_perm. constructor. exact IH.
Qed.

Lemma arraySort_In l x : In x (arraySort cmp l) <-> In x l.
Proof.
  split; apply Permutation_in;
    [apply arraySort_perm | symmetry; apply arraySort_perm].
Qed.


Lemma sortInsert_ascending x l :
  ascending key l -> ascending key (sortInsert cmp x l).
Proof.
  unfold ascending. induction 1 as [|y l Hl IH Hy]; simpl.
  - repeat constructor.
  - destruct (Qltb 0 (cmp x y)) eqn:E.
    + constructor; [exact IH|].
      apply List.Forall_forall. intros z Hz.
      apply (Permutation_in _ (sortInsert_perm x l)) in Hz.
      destruct Hz as [<-|Hz].
      * apply Qlt_le_weak, cmp_pos, E.
      * rewrite List.Forall_forall in Hy. apply Hy, Hz.
    + apply cmp_nonpos in E.
      constructor; [constructor; assumption|].
      constructor; [exact E|].
      eapply List.Forall_impl; [|exact Hy].
      intros z Hz. simpl in Hz. eapply Qle_trans; eassumption.
Qed.

Lemma arraySort_ascending l : ascending key (arraySort cmp l).
Proof.
  induction l as [|x l IH]; simpl.
  - constructor.
  - apply sortInsert_ascending, IH.
Qed.


Lemma sortInsert_withKey p x l :
  withKey key p (sortInsert cmp x l) = withKey key p (x :: l).
Proof.
  induction l as [|y l IH]; [reflexivity|].
  cbn [sortInsert]. destruct (Qltb 0 (cmp x y)) eqn:E; [|reflexivity].
  apply cmp_pos in E.
  unfold withKey in *. cbn [List.filter] in *. rewrite IH.
  destruct (Qeq_bool (key x) p) eqn:Ex, (Qeq_bool (key y) p) eqn:Ey;
    try reflexivity.
  apply Qeq_bool_iff in Ex, Ey. rewrite Ex, Ey in E.
  exfalso. exact (Qlt_irrefl _ E).
Qed.

Lemma arraySort_stable p l :
  withKey key p (arraySort cmp l) = withKey key p l.
Proof.
  induction l as [|x l IH]; [reflexivity|].
  cbn [arraySort fold_right]. rewrite sortInsert_withKey.
  unfold withKey in *. cbn [List.filter]. fold (arraySort cmp l).
  rewrite IH. reflexivity.
Qed.
End ArraySortFacts.

(** ** The ranker, step by step *)

Lemma scanAccount_Some conn mint bot price account h :
  scanAccount conn mint bot price account = Some h ->
  exists i,
    info account = Some i /\
    let bal := match tokenAmount i with
               | Some t => uiAmountString t
               | None => 0%Q
               end in
    let raw := match tokenAmount i with
               | Some t => amount t
               | None => 0
               end in
    let hist := getSwapHistory conn (owner i) mint in
    h = mkHolder (pubkey account) (owner i) bal raw hist price /\
    (0 < bal)%Q /\ (owner i ∉ EXCLUDED) /\ (owner i <> bot) /\
    (0 < totalTokensBought hist)%Q /\ (0 < totalSolSpent hist)%Q.
Proof.
  unfold scanAccount. destruct (info account) as [i|]; [|discriminate].
  intros H. exists i. split; [reflexivity|]. cbv zeta.
  destruct (Qle_bool _ 0) eqn:Ebal in H; [discriminate|].
  destruct (bool_decide (owner i ∈ EXCLUDED)) eqn:Eex in H; [discriminate|].
  destruct (String.eqb (owner i) bot) eqn:Ebot in H; [discriminate|].
  cbn [orb] in H.
  destruct (Qle_bool (totalTokensBought _) 0) eqn:Eb in H; [discriminate|].
  destruct (Qle_bool (totalSolSpent _) 0) eqn:Es in H; [discriminate|].
  cbn [orb] in H. injection H as <-.
  apply Qle_bool_false in Ebal, Eb, Es.
  apply bool_decide_eq_false in Eex. apply String.eqb_neq in Ebot.
  repeat split; assumption.
Qed.

Lemma In_scanHolders conn mint bot price accounts h :
  In h (scanHolders conn mint bot price accounts) <->
  exists account,
    In account accounts /\ scanAccount conn mint bot price account = Some h.
Proof.
  unfold scanHolders. rewrite <- list_elem_of_In, list_elem_of_omap.
  split; intros (a & Ha & E); exists a; split; try assumption;
    apply list_elem_of_In; assumption.
Qed.

Lemma getHolders_Ok cfg bot m conn c accounts :
  getParsedProgramAccounts conn = Ok accounts ->
  getHolders cfg bot m conn c =
  Ok (arraySort byPnl
        (List.filter (isEligible m c)
           (scanHolders conn (TOKEN_MINT cfg) bot (getPrice conn) accounts))).
Proof. unfold getHolders. intros ->. reflexivity. Qed.

Lemma In_getHolders cfg bot m conn c accounts hs h :
  getParsedProgramAccounts conn = Ok accounts ->
  getHolders cfg bot m conn c = Ok hs ->
  In h hs <->
  In h (scanHolders conn (TOKEN_MINT cfg) bot (getPrice conn) accounts)
  /\ isEligible m c h = true.
Proof.
  intros Ha. rewrite (getHolders_Ok _ _ _ _ _ _ Ha). intros [= <-].
  unfold byPnl. rewrite (arraySort_In pnl). apply filter_In.
Qed.

(** ** The ranked output *)

(** C7. For every holder set the ranker returns, its output is in
    ascending order of [pnl], and the holders sharing one [pnl] come out
    in the order the scan met them: the sort is stable. *)
Theorem ranked_output_sorted_stable cfg bot m conn c accounts :
  getParsedProgramAccounts conn = Ok accounts ->
  exists hs,
    getHolders cfg bot m conn c = Ok hs /\
    ascending pnl hs /\
    forall p,
      withKey pnl p hs =
      withKey pnl p
        (List.filter (isEligible m c)
           (scanHolders conn (TOKEN_MINT cfg) bot (getPrice conn) accounts)).
Proof.
  intros Ha. eexists. split; [apply getHolders_Ok, Ha|]. split.
  - apply (arraySort_ascending pnl).
  - intros p. apply (arraySort_stable pnl).
Qed.

Lemma ranked_output_sorted_stable_witness :
  exists hs,
    getHolders sampleConfig "" ∅ (sampleConn (Ok (Some (1 # 100)%Q))) (Some 1)
    = Ok hs /\
    ascending pnl hs /\
    forall p,
      withKey pnl p hs =
      withKey pnl p
        (List.filter (isEligible ∅ (Some 1))
           (scanHolders (sampleConn (Ok (Some (1 # 100)%Q)))
              (TOKEN_MINT sampleConfig) ""
              (getPrice (sampleConn (Ok (Some (1 # 100)%Q))))
              [ tokenAccount "ataBob" "bob" 1000 1000000000;
                tokenAccount "ataAlice" "alice" 300 300000000;
                tokenAccount "ataCarol" "carol" 5000 5000000000;
                tokenAccount "ataErin" "erin" 300 300000000 ])).
Proof.
  apply (ranked_output_sorted_stable sampleConfig "" ∅
           (sampleConn (Ok (Some (1 # 100)%Q))) (Some 1)).
  reflexivity.
Defined.

(** The worked example over binary64: the literals 0.01 and 0.3 denote
    the doubles 0x1.47ae147ae147bp-7 and 0x1.3333333333333p-2, and the
    five lines give exactly 0.3, 300, 15, 3 and -12. *)
Lemma worked_example_binary64 :
  derived64 300 1000 50 0x1.47ae147ae147bp-7 =
  {| retainedRatio64 := 0x1.3333333333333p-2;
     effectiveBalance64 := 300;
     adjustedCostBasis64 := 15;
     currentValue64 := 3;
     pnl64 := -12 |}.
Proof. vm_compute. reflexivity. Qed.

(** C3. Every record the ranker returns carries
    retainedRatio = min(1, balance / swapBought),
    costBasis = swapSpent * retainedRatio,
    currentValue = min(balance, swapBought) * price and
    pnl = currentValue - costBasis, [swapBought] and [swapSpent] being
    the totals of the wallet's swap history; on the sample ledger, alice
    (balance 300, bought 1000 for 50, price 0.01) gets retainedRatio 0.3,
    cost basis 15, current value 3 and pnl -12. *)
Theorem holder_derived_fields :
  (forall cfg bot m conn c accounts,
      getParsedProgramAccounts conn = Ok accounts ->
      exists hs,
        getHolders cfg bot m conn c = Ok hs /\
        forall h, In h hs ->
          let hist := getSwapHistory conn (wallet h) (TOKEN_MINT cfg) in
          let effectiveBalance := Qmin (balance h) (swapBought h) in
          swapBought h = totalTokensBought hist /\
          retainedRatio h = Qmin 1 (balance h / swapBought h) /\
          costBasis h = (totalSolSpent hist * retainedRatio h)%Q /\
          currentValue h = (effectiveBalance * getPrice conn)%Q /\
          pnl h = (effectiveBalance * getPrice conn - costBasis h)%Q)
  /\
  (let conn := sampleConn (Ok (Some (1 # 100)%Q)) in
   exists h rest,
     getHolders sampleConfig "" ∅ conn None = Ok (h :: rest) /\
     wallet h = "alice" /\
     (balance h == 300)%Q /\ (swapBought h == 1000)%Q /\
     (totalSolSpent (getSwapHistory conn "alice" sampleMint) == 50)%Q /\
     (retainedRatio h == 3 # 10)%Q /\ (costBasis h == 15)%Q /\
     (currentValue h == 3)%Q /\ (pnl h == - (12))%Q).
Proof.
  split.
  - intros cfg bot m conn c accounts Ha.
    eexists. split; [apply getHolders_Ok, Ha|].
    intros h Hh. unfold byPnl in Hh. apply (proj1 (arraySort_In pnl _ _)) in Hh.
    apply filter_In in Hh as [Hh _].
    apply In_scanHolders in Hh as (account & _ & Hs).
    apply scanAccount_Some in Hs as (i & _ & -> & _).
    cbn. repeat split; reflexivity.
  - cbv zeta. eexists _, _. split; [vm_compute; reflexivity|].
    repeat split.
Qed.

Lemma holder_derived_fields_witness :
  exists hs,
    getHolders sampleConfig "" ∅ (sampleConn (Ok (Some (1 # 100)%Q))) None
    = Ok hs /\
    forall h, In h hs ->
      retainedRatio h = Qmin 1 (balance h / swapBought h) /\
      pnl h = (Qmin (balance h) (swapBought h) * (1 # 100) - costBasis h)%Q.
Proof.
  destruct (proj1 holder_derived_fields sampleConfig "" ∅
              (sampleConn (Ok (Some (1 # 100)%Q))) None _ eq_refl)
    as (hs & E & H).
  exists hs. split; [exact E|].
  intros h Hh. destruct (H h Hh) as (_ & Hr & _ & _ & Hp).
  split; [exact Hr | exact Hp].
Defined.

(** The guard of the scan loop: a wallet whose swap totals, as
    [getSwapHistory] computes them, are not both positive is in no
    ranked output, whatever it holds. *)
Lemma empty_history_is_dropped cfg bot m conn c accounts w :
  getParsedProgramAccounts conn = Ok accounts ->
  (totalTokensBought (getSwapHistory conn w (TOKEN_MINT cfg)) <= 0)%Q
  \/ (totalSolSpent (getSwapHistory conn w (TOKEN_MINT cfg)) <= 0)%Q ->
  exists hs,
    getHolders cfg bot m conn c = Ok hs /\
    forall h, In h hs -> wallet h <> w.
Proof.
  intros Ha Hw. eexists. split; [apply getHolders_Ok, Ha|].
  intros h Hh Ew. unfold byPnl in Hh.
  apply (proj1 (arraySort_In pnl _ _)) in Hh.
  apply filter_In in Hh as [Hh _].
  apply In_scanHolders in Hh as (account & _ & Hs).
  apply scanAccount_Some in Hs as (i & _ & -> & _ & _ & _ & Hb & Hs).
  cbn in Ew. subst w.
  destruct Hw as [H|H].
  - exact (Qlt_not_le _ _ Hb H).
  - exact (Qlt_not_le _ _ Hs H).
Qed.


(** ** The price at zero *)

Lemma getPrice_unavailable conn :
  priceUnavailable conn -> (getPrice conn == 0)%Q.
Proof.
  unfold priceUnavailable, getPrice.
  destruct (priceResponse conn) as [[p|]|]; intros H;
    [exact H | reflexivity | reflexivity].
Qed.

Lemma mkHolder_zero_price acct own bal raw hist price :
  (price == 0)%Q ->
  (currentValue (mkHolder acct own bal raw hist price) == 0)%Q /\
  (pnl (mkHolder acct own bal raw hist price)
   == - costBasis (mkHolder acct own bal raw hist price))%Q.
Proof.
  intros Hp. cbn. split.
  - rewrite Hp. apply Qmult_0_r.
  - rewrite Hp. ring.
Qed.

Lemma filter_none {A} (f : A -> bool) (l : list A) :
  (forall x, In x l -> f x = false) -> List.filter f l = [].
Proof.
  induction l as [|x l IH]; intros H; [reflexivity|].
  simpl. rewrite (H x) by (left; reflexivity).
  apply IH. intros y Hy. apply H. right. exact Hy.
Qed.

Lemma below_floor_not_eligible m c h :
  (currentValue h == 0)%Q -> isEligible m c h = false.
Proof.
  intros H. unfold isEligible.
  assert (E : Qltb (currentValue h) MIN_VALUE_SOL = true).
  { apply Qltb_lt. rewrite H. reflexivity. }
  rewrite E. reflexivity.
Qed.

(** C2, amended. When the exchange-rate source is unavailable or
    returns zero, the ranker does not throw and works with the price 0:
    every scanned record has current value 0 and pnl = -costBasis; a
    current value of 0 is below the minimum-value floor, so every record
    is dropped and the output is the empty list. *)
Theorem zero_price_ranks_nobody cfg bot m conn c accounts :
  getParsedProgramAccounts conn = Ok accounts ->
  priceUnavailable conn ->
  (getPrice conn == 0)%Q /\
  (forall h,
      In h (scanHolders conn (TOKEN_MINT cfg) bot (getPrice conn) accounts) ->
      (currentValue h == 0)%Q /\ (pnl h == - costBasis h)%Q) /\
  getHolders cfg bot m conn c = Ok [].
Proof.
  intros Ha Hp. apply getPrice_unavailable in Hp.
  assert (Hall : forall h,
    In h (scanHolders conn (TOKEN_MINT cfg) bot (getPrice conn) accounts) ->
    (currentValue h == 0)%Q /\ (pnl h == - costBasis h)%Q).
  { intros h Hh. apply In_scanHolders in Hh as (account & _ & Hs).
    apply scanAccount_Some in Hs as (i & _ & -> & _).
    apply mkHolder_zero_price, Hp. }
  split; [exact Hp|]. split; [exact Hall|].
  rewrite (getHolders_Ok _ _ _ _ _ _ Ha).
  rewrite filter_none; [reflexivity|].
  intros h Hh. apply below_floor_not_eligible, Hall, Hh.
Qed.

Lemma zero_price_ranks_nobody_witness :
  getHolders sampleConfig "" ∅ (sampleConn (Throw "fetch failed")) (Some 1)
  = Ok [].
Proof.
  apply (zero_price_ranks_nobody sampleConfig "" ∅
           (sampleConn (Throw "fetch failed")) (Some 1) _ eq_refl I).
Defined.

(** C2 as stated fails on the sample ledger with the price fetch failing:
    bob, alice and erin have purchase history and no cooldown, alice and
    erin being the biggest spenders, yet the output is empty: nobody is
    ranked first. *)
Lemma zero_price_is_no_spender_ranking :
  priceUnavailable (sampleConn (Throw "fetch failed")) /\
  ~ degradesToSpenderRanking sampleConfig "" ∅
      (sampleConn (Throw "fetch failed")) 1
      [ tokenAccount "ataBob" "bob" 1000 1000000000;
        tokenAccount "ataAlice" "alice" 300 300000000;
        tokenAccount "ataCarol" "carol" 5000 5000000000;
        tokenAccount "ataErin" "erin" 300 300000000 ].
Proof.
  split; [exact I|].
  intros (hs & E & H).
  vm_compute in E. injection E as <-.
  remember (scanHolders _ _ _ _ _) as scanned eqn:Es in H.
  destruct scanned as [|h scanned]; [vm_compute in Es; discriminate|].
  destruct (H h) as (top & rest & Hnil & _); [left; reflexivity| |].
  - unfold isOnCooldown. rewrite lookup_empty. reflexivity.
  - discriminate.
Qed.

(** ** The split *)

(** C6. For a positive total, toSend = floor(total / 2) and
    toBurn = total - toSend: the two add up to the total, and toBurn
    exceeds toSend by 0 or 1. *)
Theorem split_exact total :
  0 < total ->
  fst (split total) = total / 2 /\
  snd (split total) = total - fst (split total) /\
  fst (split total) + snd (split total) = total /\
  (snd (split total) - fst (split total) = 0
   \/ snd (split total) - fst (split total) = 1) /\
  fst (split total) <= snd (split total).
Proof.
  intros Ht. unfold split. cbn [fst snd].
  rewrite Z.quot_div_nonneg by lia.
  assert (H := Z.div_mod total 2 ltac:(lia)).
  assert (Hm := Z.mod_pos_bound total 2 ltac:(lia)).
  repeat split; lia.
Qed.

Lemma split_exact_witness :
  split 7 = (3, 4) /\ 3 + 4 = 7 /\ fst (split 7) <= snd (split 7).
Proof.
  destruct (split_exact 7 ltac:(lia)) as (_ & _ & _ & _ & H).
  repeat split. exact H.
Defined.

(** ** Frames: what the pipeline steps leave untouched *)

Section Frames.
Context (P : Submission -> Prop).

Lemma frame_refl w : frame P w w.
Proof.
  split; try reflexivity. exists []. split; [|constructor].
  symmetry. apply app_nil_r.
Qed.

Lemma frame_trans w1 w2 w3 : frame P w1 w2 -> frame P w2 w3 -> frame P w1 w3.
Proof.
  intros [c1 m1 l1 (n1 & s1 & f1)] [c2 m2 l2 (n2 & s2 & f2)].
  split; try congruence.
  exists (n1 ++ n2)%list. split.
  - rewrite s2, s1. symmetry. apply app_assoc.
  - apply Forall_app. split; assumption.
Qed.

Lemma framed_ret {A} (a : A) : framed P (ret a).
Proof. intros w r w' [= <- <-]. apply frame_refl. Qed.

Lemma framed_throw {A} e : framed P (@throw A e).
Proof. intros w r w' [= <- <-]. apply frame_refl. Qed.

Lemma framed_await {A} (x : result A) : framed P (await x).
Proof. intros w r w' [= <- <-]. apply frame_refl. Qed.

Lemma framed_bind {A B} (m : M A) (k : A -> M B) :
  framed P m -> (forall a, framed P (k a)) -> framed P (bind m k).
Proof.
  intros Hm Hk w r w'. unfold bind.
  destruct (m w) as [[a|e] w1] eqn:Em; intros H.
  - eapply frame_trans; [eapply Hm, Em | eapply Hk, H].
  - injection H as <- <-. eapply Hm, Em.
Qed.

Lemma framed_tryCatch {A} (m : M A) (h : string -> M A) :
  framed P m -> (forall e, framed P (h e)) -> framed P (tryCatch m h).
Proof.
  intros Hm Hh w r w'. unfold tryCatch.
  destruct (m w) as [[a|e] w1] eqn:Em; intros H.
  - injection H as <- <-. eapply Hm, Em.
  - eapply frame_trans; [eapply Hm, Em | eapply Hh, H].
Qed.

Lemma framed_sendAndConfirm ixs outcome :
  (forall b, P {| instructions := ixs; confirmed := b |}) ->
  framed P (sendAndConfirm ixs outcome).
Proof.
  intros HP w r w' [= <- <-]. split; try reflexivity.
  eexists. split; [reflexivity|]. repeat constructor. apply HP.
Qed.
End Frames.

Lemma frame_weaken (P Q : Submission -> Prop) w w' :
  (forall s, P s -> Q s) -> frame P w w' -> frame Q w w'.
Proof.
  intros HPQ [c m l (n & s & f)]. split; try assumption.
  exists n. split; [exact s|]. eapply List.Forall_impl; eassumption.
Qed.

Ltac framing :=
  repeat first
    [ apply framed_ret | apply framed_throw | apply framed_await
    | apply framed_bind; [|intros ?]
    | apply framed_tryCatch; [|intros ?]
    | match goal with
      | |- framed _ (if ?b then _ else _) => destruct b
      | |- framed _ (match ?x with _ => _ end) => destruct x
      end ].

Lemma claimFees_framed cfg net : framed isWithdrawTx (claimFees cfg net).
Proof.
  unfold claimFees, withdrawPumpFunFees. framing.
  apply framed_sendAndConfirm. reflexivity.
Qed.

Lemma buyTokens_framed net solAmount :
  framed isSwapTx (buyTokens net solAmount).
Proof.
  unfold buyTokens. framing.
  apply framed_sendAndConfirm. intros b. eexists. reflexivity.
Qed.

(** The fee claimer in the MIGRATED state. *)
Lemma claimFees_migrated cfg net w :
  isOnBondingCurve net = false ->
  claimFees cfg net w =
  match getBalance net with
  | Ok balance =>
      let available :=
        Qmax 0 (inject_Z balance / LAMPORTS_PER_SOL - RESERVE_SOL) in
      (Ok (if Qltb available (MIN_FEE_SOL cfg) then 0%Q else available), w)
  | Throw e => (Throw e, w)
  end.
Proof.
  intros E. unfold claimFees. rewrite E. unfold bind, await, ret.
  destruct (getBalance net) as [b|e]; [|reflexivity].
  cbv zeta. destruct (Qltb _ _); reflexivity.
Qed.

(** What [distribute] returns and what it leaves in the log. *)
Lemma distribute_spec cfg net recipient total w :
  exists w' log,
    distribute cfg net recipient total w =
    (match sendOutcome net, burnOutcome net with
     | Ok txSend, Ok txBurn => Ok (txSend, txBurn)
     | Ok _, Throw e => Throw e
     | Throw e, _ => Throw e
     end, w') /\
    cycleCount w' = cycleCount w /\
    recentWinners w' = recentWinners w /\
    lastRecipient w' = lastRecipient w /\
    submitted w' = (submitted w ++ log)%list /\
    distributeLog cfg net recipient total log.
Proof.
  unfold distribute, distributeLog, bind, ret, sendAndConfirm.
  destruct (sendOutcome net) as [txSend|e]; cbn.
  - unfold isBurnTx.
    destruct (BURN_METHOD cfg), (burnOutcome net) as [txBurn|e]; cbn;
      (eexists _, _; split; [reflexivity|]);
      repeat (split; [reflexivity|]);
      (split; [rewrite <- app_assoc; reflexivity|]); cbn [app];
      match goal with
      | |- context [ [?a; ?b] = _ ] =>
          exists a; split;
          [|split; [reflexivity|exists b; split; [reflexivity|]]]
      end;
      unfold isSendTx; cbn;
      destruct (recipientAccountExists net);
      try destruct (deadAccountExists net); cbn; auto.
  - eexists _, _. split; [reflexivity|].
    repeat (split; [reflexivity|]).
    eexists. split; [|split; reflexivity].
    unfold isSendTx. cbn. destruct (recipientAccountExists net); cbn; auto.
Qed.

(** ** One cycle *)

Ltac unfold_cycle :=
  cbv beta iota zeta delta
    [runCycle bind tryCatch incrCycleCount getCycleCount getHoldersM ret
     setLastRecipient recordWinnerM];
  cbn [cycleCount recentWinners lastRecipient submitted].

Lemma cycleEnd_early cfg net w out w' pre :
  (forall r, out <> CycleComplete r) ->
  cycleCount w' = cycleCount w + 1 ->
  recentWinners w' = recentWinners w ->
  lastRecipient w' = lastRecipient w ->
  submitted w' = (submitted w ++ pre)%list ->
  Forall isClaimOrSwapTx pre ->
  cycleEnd cfg net w out w'.
Proof.
  intros Hout Hc Hm Hl Hs Hp. exists pre. split; [exact Hc|].
  split; [exact Hp|]. left. repeat split; assumption.
Qed.

Ltac end_early pre :=
  eexists _, _; split; [reflexivity|];
  apply (cycleEnd_early _ _ _ _ _ pre);
  [discriminate | congruence | congruence | congruence
  | assumption | assumption].

(** A cycle never throws, and it ends as [cycleEnd] says. *)
Lemma runCycle_spec cfg bot conn net w :
  exists out w',
    runCycle cfg bot conn net w = (Ok out, w') /\ cycleEnd cfg net w out w'.
Proof.
  unfold_cycle.
  remember {| cycleCount := cycleCount w + 1;
              recentWinners := recentWinners w;
              lastRecipient := lastRecipient w;
              submitted := submitted w |} as w1 eqn:Ew1.
  assert (c1 : cycleCount w1 = cycleCount w + 1) by (subst w1; reflexivity).
  assert (m1 : recentWinners w1 = recentWinners w) by (subst w1; reflexivity).
  assert (l1 : lastRecipient w1 = lastRecipient w) by (subst w1; reflexivity).
  assert (s1 : submitted w1 = (submitted w ++ [])%list)
    by (subst w1; symmetry; apply app_nil_r).
  assert (f1 : Forall isClaimOrSwapTx []) by constructor.
  clear Ew1.
  destruct (getHolders _ _ _ _ _) as [[|topLoser rest]|e];
    [end_early (@nil Submission) | | end_early (@nil Submission)].
  destruct (Qle_bool 0 (pnl topLoser)); [end_early (@nil Submission)|].
  destruct (claimFees cfg net w1) as [r2 w2] eqn:Ec.
  destruct (claimFees_framed _ _ _ _ _ Ec) as [c2 m2 l2 (n2 & s2 & f2)].
  assert (F2 : Forall isClaimOrSwapTx n2).
  { eapply List.Forall_impl; [|exact f2]. intros s Hs. left. exact Hs. }
  assert (S2 : submitted w2 = (submitted w ++ n2)%list).
  { rewrite s2, s1, app_nil_r. reflexivity. }
  destruct r2 as [solAvailable|e]; [|end_early n2].
  destruct (Qle_bool solAvailable 0); [end_early n2|].
  destruct (buyTokens net solAvailable w2) as [r3 w3] eqn:Eb.
  destruct (buyTokens_framed _ _ _ _ _ Eb) as [c3 m3 l3 (n3 & s3 & f3)].
  assert (F3 : Forall isClaimOrSwapTx (n2 ++ n3)).
  { apply Forall_app. split; [exact F2|].
    eapply List.Forall_impl; [|exact f3]. intros s Hs. right. exact Hs. }
  assert (S3 : submitted w3 = (submitted w ++ n2 ++ n3)%list).
  { rewrite s3, S2. symmetry. apply app_assoc. }
  destruct r3 as [tokensReceived|e]; [|end_early (n2 ++ n3)%list].
  destruct (tokensReceived =? 0); [end_early (n2 ++ n3)%list|].
  destruct (distribute_spec cfg net (wallet topLoser) tokensReceived w3)
    as (w4 & log & Ed & c4 & m4 & l4 & s4 & Hlog).
  rewrite Ed.
  assert (S4 : submitted w4 = (submitted w ++ (n2 ++ n3) ++ log)%list).
  { rewrite s4, S3. symmetry. apply app_assoc. }
  destruct (sendOutcome net) as [txSend|e] eqn:Esend;
    [destruct (burnOutcome net) as [txBurn|e] eqn:Eburn|];
    (eexists _, _; split; [reflexivity|]);
    exists (n2 ++ n3)%list;
    (split; [cbn; congruence|]); (split; [exact F3|]);
    right; exists (wallet topLoser), tokensReceived, log;
    (split; [exact Hlog|]); (split; [exact S4|]);
    rewrite ?Esend, ?Eburn; cbn; repeat split; congruence.
Qed.

Lemma tokensOut_app l1 l2 : tokensOut (l1 ++ l2) = tokensOut l1 + tokensOut l2.
Proof.
  induction l1 as [|s l1 IH]; [reflexivity|].
  cbn [app tokensOut fold_right] in *. fold (tokensOut (l1 ++ l2)).
  fold (tokensOut l1). rewrite IH. lia.
Qed.

Lemma tokensOut_claimOrSwap pre :
  Forall isClaimOrSwapTx pre -> tokensOut pre = 0.
Proof.
  induction 1 as [|s pre Hs _ IH]; [reflexivity|].
  cbn [tokensOut fold_right]. fold (tokensOut pre). rewrite IH.
  destruct Hs as [Hs|[l Hs]]; rewrite Hs; destruct (confirmed s); reflexivity.
Qed.

(** C9. The cooldown map changes only in a cycle whose distribution
    resolved: a cycle that completes had both the send and the burn
    confirmed and records its recipient as the winner of that cycle; a
    cycle that ends in any other way (skip or failure, at whatever step)
    leaves the map exactly as it was. *)
Theorem cooldown_updated_only_after_distribution cfg bot conn net w :
  exists out w',
    runCycle cfg bot conn net w = (Ok out, w') /\
    match out with
    | CycleComplete recipient =>
        (exists txSend txBurn,
            sendOutcome net = Ok txSend /\ burnOutcome net = Ok txBurn) /\
        (exists pre s1 s2,
            submitted w' = (submitted w ++ pre ++ [s1; s2])%list /\
            confirmed s1 = true /\ confirmed s2 = true) /\
        recentWinners w' =
        recordWinner (recentWinners w) recipient (cycleCount w + 1)
    | _ => recentWinners w' = recentWinners w
    end.
Proof.
  destruct (runCycle_spec cfg bot conn net w)
    as (out & w' & E & pre & _ & _ & H).
  exists out, w'. split; [exact E|].
  destruct H as [(Hout & Hm & _)|(r & total & log & Hlog & Hs & H)].
  - destruct out; try exact Hm. exfalso. exact (Hout _ eq_refl).
  - destruct Hlog as (s1 & _ & Hlog).
    destruct (sendOutcome net) as [txSend|e];
      [|destruct H as (-> & Hm & _); exact Hm].
    destruct Hlog as (Hc1 & s2 & -> & _ & Hc2).
    destruct (burnOutcome net) as [txBurn|e];
      [|destruct H as (-> & Hm & _); exact Hm].
    destruct H as (-> & Hm). split; [eauto|]. split; [|exact Hm].
    exists pre, s1, s2. repeat split; assumption.
Qed.

(** C8. [distribute] submits the burn only behind a confirmed send: its
    log is the send alone, unconfirmed, when the send fails, and the
    confirmed send followed by the burn otherwise. When the send fails,
    [distribute] throws, the cycle ends without completing, the cooldown
    map is untouched, and every transaction of the cycle is a fee claim,
    a swap or the unconfirmed send: no burn was submitted and no token
    left the operator's account. *)
Theorem burn_only_after_confirmed_send cfg bot conn net :
  (forall recipient total w,
      exists r w' log,
        distribute cfg net recipient total w = (r, w') /\
        submitted w' = (submitted w ++ log)%list /\
        distributeLog cfg net recipient total log /\
        forall e, sendOutcome net = Throw e ->
                  r = Throw e /\ tokensOut log = 0)
  /\
  (forall e w,
      sendOutcome net = Throw e ->
      exists out w' new,
        runCycle cfg bot conn net w = (Ok out, w') /\
        (forall r, out <> CycleComplete r) /\
        recentWinners w' = recentWinners w /\
        submitted w' = (submitted w ++ new)%list /\
        tokensOut new = 0 /\
        Forall (fun s => isClaimOrSwapTx s
                         \/ (confirmed s = false
                             /\ exists r a, isSendTx r a s)) new).
Proof.
  split.
  - intros recipient total w.
    destruct (distribute_spec cfg net recipient total w)
      as (w' & log & E & _ & _ & _ & Hs & Hlog).
    eexists _, w', log. split; [exact E|]. split; [exact Hs|].
    split; [exact Hlog|]. intros e He.
    destruct Hlog as (s1 & _ & Hlog). rewrite He in *.
    destruct Hlog as (-> & Hc). split; [reflexivity|].
    cbn. rewrite Hc. reflexivity.
  - intros e w He.
    destruct (runCycle_spec cfg bot conn net w)
      as (out & w' & E & pre & _ & Hpre & H).
    exists out, w'.
    destruct H as [(Hout & Hm & _ & Hs)|(r & total & log & Hlog & Hs & H)].
    + exists pre. repeat split; try assumption.
      * apply tokensOut_claimOrSwap, Hpre.
      * eapply List.Forall_impl; [|exact Hpre]. intros s Hs'. left. exact Hs'.
    + destruct Hlog as (s1 & Hsend & Hlog). rewrite He in *.
      destruct Hlog as (-> & Hc). destruct H as (-> & Hm & _).
      exists (pre ++ [s1])%list. repeat split; try assumption.
      * discriminate.
      * rewrite tokensOut_app, (tokensOut_claimOrSwap _ Hpre).
        cbn. rewrite Hc. reflexivity.
      * apply Forall_app. split.
        -- eapply List.Forall_impl; [|exact Hpre].
           intros s Hs'. left. exact Hs'.
        -- constructor; [|constructor].
           right. split; [exact Hc|]. eauto.
Qed.

Lemma burn_only_after_confirmed_send_witness :
  exists out w' new,
    runCycle sampleConfig "" (sampleConn (Ok (Some (1 # 100)%Q)))
      (sampleNet None 112000000 (Throw "send failed")) startWorld
    = (Ok out, w') /\
    (forall r, out <> CycleComplete r) /\
    recentWinners w' = recentWinners startWorld /\
    submitted w' = (submitted startWorld ++ new)%list /\
    tokensOut new = 0 /\
    Forall (fun s => isClaimOrSwapTx s
                     \/ (confirmed s = false
                         /\ exists r a, isSendTx r a s)) new.
Proof.
  apply (proj2 (burn_only_after_confirmed_send sampleConfig ""
                  (sampleConn (Ok (Some (1 # 100)%Q)))
                  (sampleNet None 112000000 (Throw "send failed")))
           "send failed" startWorld).
  reflexivity.
Defined.

(** ** The minimum-fee threshold *)

(** In the MIGRATED state a usable amount below [MIN_FEE_SOL] makes the
    claimer answer 0, and the cycle ends having submitted nothing. *)
Lemma migrated_dust_skips cfg bot conn net w balance :
  isOnBondingCurve net = false ->
  getBalance net = Ok balance ->
  (Qmax 0 (inject_Z balance / LAMPORTS_PER_SOL - RESERVE_SOL)
   < MIN_FEE_SOL cfg)%Q ->
  claimFees cfg net w = (Ok 0%Q, w) /\
  exists out w',
    runCycle cfg bot conn net w = (Ok out, w') /\
    submitted w' = submitted w /\
    recentWinners w' = recentWinners w /\
    forall r, out <> CycleComplete r.
Proof.
  intros Hcurve Hbal Hdust.
  assert (Hclaim : forall w0, claimFees cfg net w0 = (Ok 0%Q, w0)).
  { intros w0. rewrite (claimFees_migrated _ _ _ Hcurve), Hbal. cbv zeta.
    apply Qltb_lt in Hdust. rewrite Hdust. reflexivity. }
  split; [apply Hclaim|].
  unfold_cycle.
  destruct (getHolders _ _ _ _ _) as [[|topLoser rest]|e];
    try (eexists _, _; repeat split; discriminate).
  destruct (Qle_bool 0 (pnl topLoser));
    [eexists _, _; repeat split; discriminate|].
  rewrite Hclaim. cbn.
  eexists _, _; repeat split; discriminate.
Qed.

(** C1 at the failing input: the token is on the bonding curve, which
    holds 0.002 SOL; after the withdrawal the operator holds 0.012 SOL,
    so 0.002 SOL are usable, which is positive and below
    [MIN_FEE_SOL] = 0.005. The claimer returns the 0.002 as they are,
    and the cycle goes on: it swaps 2000000 lamports and distributes. *)
Theorem curve_active_dust_is_not_skipped :
  let net :=
    sampleNet (Some {| lamports := 2000000; dataLength := 150 |})
      12000000 (Ok "sigSend") in
  isOnBondingCurve net = true /\
  (exists q w1,
      claimFees sampleConfig net startWorld = (Ok q, w1) /\
      (0 < q)%Q /\ (q < MIN_FEE_SOL sampleConfig)%Q) /\
  exists w',
    runCycle sampleConfig "" (sampleConn (Ok (Some (1 # 100)%Q))) net
      startWorld
    = (Ok (CycleComplete "alice"), w') /\
    submitted w' =
    [ {| instructions := [IxWithdraw]; confirmed := true |};
      {| instructions := [IxSwap 2000000]; confirmed := true |};
      {| instructions := [IxTransfer "alice" 1000000000];
         confirmed := true |};
      {| instructions := [IxBurn 1000000000]; confirmed := true |} ].
Proof.
  cbv zeta. split; [reflexivity|]. split.
  - eexists _, _. split; [vm_compute; reflexivity|].
    split; reflexivity.
  - eexists. split; [vm_compute; reflexivity|]. reflexivity.
Qed.

(** ** Cycle numbers *)

Lemma runCycle_winsInPast cfg bot conn net w :
  winsInPast w -> winsInPast (snd (runCycle cfg bot conn net w)).
Proof.
  intros [Hc Hm].
  destruct (runCycle_spec cfg bot conn net w)
    as (out & w' & E & pre & Hc' & _ & H).
  rewrite E. cbn [snd]. split; [lia|]. intros a k.
  assert (Hold : recentWinners w' = recentWinners w ->
                 recentWinners w' !! a = Some k -> 1 <= k <= cycleCount w').
  { intros -> Hk. apply Hm in Hk. lia. }
  destruct H as [(_ & Hw & _)|(r & total & log & _ & _ & H)];
    [exact (Hold Hw)|].
  destruct (sendOutcome net); [destruct (burnOutcome net)|];
    try (destruct H as (_ & Hw & _); exact (Hold Hw)).
  destruct H as (_ & ->). unfold recordWinner.
  destruct (decide (r = a)) as [->|Hne].
  - rewrite lookup_insert_eq. intros [= <-]. lia.
  - rewrite lookup_insert_ne by exact Hne. intros Hk. apply Hm in Hk. lia.
Qed.

(** Whatever the outside world answers, after any number of cycles from
    the start the counter is the number of cycles run and every recorded
    win carries the number of one of them: at least 1. *)
Lemma wins_recorded_at_positive_cycles cfg bot ticks :
  winsInPast (runCycles cfg bot ticks startWorld).
Proof.
  unfold runCycles.
  assert (H0 : winsInPast startWorld).
  { split; [reflexivity|]. intros a k. cbn. rewrite lookup_empty.
    discriminate. }
  revert H0. generalize startWorld.
  induction ticks as [|tick ticks IH]; intros w Hw; [exact Hw|].
  cbn [fold_left]. apply IH, runCycle_winsInPast, Hw.
Qed.

(** ** The cooldown *)

Lemma isOnCooldown_recorded m w k c :
  k <> 0 ->
  isOnCooldown (recordWinner m w k) w c = (c - k <=? COOLDOWN_CYCLES).
Proof.
  intros Hk. unfold isOnCooldown, recordWinner.
  rewrite lookup_insert_eq. cbn [falsy].
  destruct (Z.eqb_spec k 0) as [E|_]; [contradiction|reflexivity].
Qed.

Lemma isEligible_floor m c h :
  isEligible m c h = true -> (MIN_VALUE_SOL <= currentValue h)%Q.
Proof.
  unfold isEligible. destruct (Qltb _ _) eqn:E; [discriminate|].
  intros _. apply Qltb_ge, E.
Qed.

(** C5. A wallet that won cycle [k], [k] other than 0 (cycles are
    numbered from 1: the counter is incremented before it is used, so
    that every recorded win has [1 <= k], see
    [wins_recorded_at_positive_cycles]), is on cooldown exactly while
    [c - k <= COOLDOWN_CYCLES = 2]: it is in no ranked output of
    cycles [k+1] and [k+2], and from cycle [k+3] on a record of it is in
    the output as soon as it passes the other guards (it was scanned and
    its current value reaches the floor). *)
Theorem winner_cooldown_window cfg bot m conn accounts w k c :
  k <> 0 ->
  getParsedProgramAccounts conn = Ok accounts ->
  isOnCooldown (recordWinner m w k) w c = (c - k <=? COOLDOWN_CYCLES) /\
  exists hs,
    getHolders cfg bot (recordWinner m w k) conn (Some c) = Ok hs /\
    (k + 1 <= c <= k + 2 -> forall h, In h hs -> wallet h <> w) /\
    (k + 3 <= c ->
     forall h, wallet h = w ->
       In h hs <->
       In h (scanHolders conn (TOKEN_MINT cfg) bot (getPrice conn) accounts)
       /\ (MIN_VALUE_SOL <= currentValue h)%Q).
Proof.
  intros Hk Ha.
  assert (Hcd := isOnCooldown_recorded m w k c Hk).
  split; [exact Hcd|].
  eexists. split; [apply getHolders_Ok, Ha|].
  unfold COOLDOWN_CYCLES in Hcd. split.
  - intros Hc h Hh Ew. unfold byPnl in Hh.
    apply (proj1 (arraySort_In pnl _ _)) in Hh.
    apply filter_In in Hh as [_ He].
    unfold isEligible in He. rewrite Ew, Hcd in He.
    destruct (Qltb _ _); [discriminate|].
    destruct (Z.leb_spec (c - k) 2); [discriminate|lia].
  - intros Hc h Ew. unfold byPnl. rewrite (arraySort_In pnl), filter_In.
    split; intros [Hs He]; (split; [exact Hs|]).
    + eapply isEligible_floor, He.
    + unfold isEligible. apply Qltb_ge in He. rewrite He, Ew, Hcd.
      destruct (Z.leb_spec (c - k) 2); [lia|reflexivity].
Qed.

Lemma winner_cooldown_window_witness :
  (exists hs,
      getHolders sampleConfig "" (recordWinner ∅ "alice" 1)
        (sampleConn (Ok (Some (1 # 100)%Q))) (Some 3) = Ok hs /\
      forall h, In h hs -> wallet h <> "alice")
  /\
  (exists hs,
      getHolders sampleConfig "" (recordWinner ∅ "alice" 1)
        (sampleConn (Ok (Some (1 # 100)%Q))) (Some 4) = Ok hs /\
      exists h, In h hs /\ wallet h = "alice").
Proof.
  split.
  - destruct (winner_cooldown_window sampleConfig "" ∅
                (sampleConn (Ok (Some (1 # 100)%Q))) _ "alice" 1 3
                ltac:(lia) eq_refl) as (_ & hs & E & Hout & _).
    exists hs. split; [exact E|]. apply Hout. lia.
  - destruct (winner_cooldown_window sampleConfig "" ∅
                (sampleConn (Ok (Some (1 # 100)%Q))) _ "alice" 1 4
                ltac:(lia) eq_refl) as (_ & hs & E & _ & Hin).
    exists hs. split; [exact E|].
    exists (mkHolder "ataAlice" "alice" 300 300000000
              (getSwapHistory (sampleConn (Ok (Some (1 # 100)%Q)))
                 "alice" sampleMint)
              (1 # 100)).
    split; [|reflexivity].
    apply Hin; [lia | reflexivity |].
    split; [right; left; reflexivity | vm_compute; discriminate].
Defined.

(** C10. A win recorded with cycle number 0 never puts the wallet on
    cooldown: [isOnCooldown] answers false at every cycle, although at
    cycles 1 and 2 the formula [currentCycle - 0 <= 2] holds. *)
Theorem win_at_cycle_zero_never_cools (m : gmap string Z) (w : string) :
  (forall c, isOnCooldown (recordWinner m w 0) w c = false) /\
  (1 - 0 <=? COOLDOWN_CYCLES) = true /\
  (2 - 0 <=? COOLDOWN_CYCLES) = true.
Proof.
  split; [|split; reflexivity].
  intros c. unfold isOnCooldown, recordWinner.
  rewrite lookup_insert_eq. reflexivity.
Qed.

(** * Further properties of the sources *)

(** ** Where binary64 and the rationals part

    Two inputs that sit exactly on a threshold over the rationals and
    beside it over binary64. The statements of this file that compare an
    amount with a threshold are about the rationals. *)

(** A debit of exactly 1,000,000 lamports from 100 SOL is
    [GAS_THRESHOLD] itself over the rationals, so [swapStep] does not
    count it; over binary64 it is above 0.001 (the double
    0x1.0624dd2f1a9fcp-10), and the code counts it as a purchase. *)
Lemma threshold_debit_binary64 :
  PrimFloat.ltb 0x1.0624dd2f1a9fcp-10
    (solSpent64 100000000000 99999000000) = true /\
  (inject_Z 100000000000 / 1000000000
   - inject_Z 99999000000 / 1000000000 == GAS_THRESHOLD)%Q.
Proof. split; [vm_compute; reflexivity | reflexivity]. Qed.

(** A balance of exactly 15,000,000 lamports leaves 0.005 SOL over the
    rationals, which is [MIN_FEE_SOL] by default and passes the
    threshold; over binary64 it leaves less than 0.005 (the double
    0x1.47ae147ae147bp-8), and the migrated branch of the code
    returns 0. *)
Lemma threshold_balance_binary64 :
  PrimFloat.ltb (available64 15000000) 0x1.47ae147ae147bp-8 = true /\
  (Qmax 0 (inject_Z 15000000 / LAMPORTS_PER_SOL - RESERVE_SOL)
   == 5 # 1000)%Q.
Proof. split; [vm_compute; reflexivity | reflexivity]. Qed.

(** ** The swap-only history, entry by entry *)

Lemma swapStep_grows conn own mint acc sig :
  (totalSolSpent acc <= totalSolSpent (swapStep conn own mint acc sig))%Q /\
  (totalTokensBought acc
   <= totalTokensBought (swapStep conn own mint acc sig))%Q.
Proof.
  unfold swapStep.
  destruct (getParsedTransaction conn sig) as [[tx|]|];
    try (split; apply Qle_refl).
  destruct (Qle_bool (tokenDelta tx own mint) 0) eqn:Ed;
    [split; apply Qle_refl|].
  destruct (Qltb GAS_THRESHOLD (solSpent tx own)) eqn:Es;
    [|split; apply Qle_refl].
  apply Qle_bool_false in Ed. apply Qltb_lt in Es. cbn. split.
  - rewrite <- (Qplus_0_r (totalSolSpent acc)) at 1.
    apply Qplus_le_r, Qlt_le_weak. eapply Qlt_trans; [|exact Es]. reflexivity.
  - rewrite <- (Qplus_0_r (totalTokensBought acc)) at 1.
    apply Qplus_le_r, Qlt_le_weak, Ed.
Qed.

Lemma fold_swapStep_grows conn own mint sigs acc :
  (totalSolSpent acc
   <= totalSolSpent (fold_left (swapStep conn own mint) sigs acc))%Q /\
  (totalTokensBought acc
   <= totalTokensBought (fold_left (swapStep conn own mint) sigs acc))%Q.
Proof.
  revert acc. induction sigs as [|s sigs IH]; intros acc.
  - split; apply Qle_refl.
  - cbn [fold_left].
    destruct (swapStep_grows conn own mint acc s) as [H1 H2].
    destruct (IH (swapStep conn own mint acc s)) as [H3 H4].
    split; eapply Qle_trans; eassumption.
Qed.

Lemma swapStep_purchase conn own mint acc sig :
  countsAsPurchase conn own mint sig ->
  (totalSolSpent acc + GAS_THRESHOLD
   < totalSolSpent (swapStep conn own mint acc sig))%Q /\
  (totalTokensBought acc
   < totalTokensBought (swapStep conn own mint acc sig))%Q.
Proof.
  intros (tx & Etx & Hd & Hs). unfold swapStep. rewrite Etx.
  apply Qle_bool_false in Hd. rewrite Hd.
  apply Qle_bool_false in Hd.
  pose proof Hs as Hs'. apply Qltb_lt in Hs'. rewrite Hs'. cbn. split.
  - apply Qplus_lt_r. exact Hs.
  - rewrite <- (Qplus_0_r (totalTokensBought acc)) at 1.
    apply Qplus_lt_r. exact Hd.
Qed.

Lemma fold_swapStep_purchase conn own mint sigs acc sig :
  In sig sigs ->
  countsAsPurchase conn own mint sig ->
  (totalSolSpent acc + GAS_THRESHOLD
   < totalSolSpent (fold_left (swapStep conn own mint) sigs acc))%Q /\
  (totalTokensBought acc
   < totalTokensBought (fold_left (swapStep conn own mint) sigs acc))%Q.
Proof.
  revert acc. induction sigs as [|s sigs IH]; intros acc Hin Hp; [easy|].
  cbn [fold_left]. destruct Hin as [->|Hin].
  - destruct (swapStep_purchase conn own mint acc sig Hp) as [H1 H2].
    destruct (fold_swapStep_grows conn own mint sigs
                (swapStep conn own mint acc sig)) as [H3 H4].
    split; eapply Qlt_le_trans; eassumption.
  - destruct (swapStep_grows conn own mint acc s) as [H1 H2].
    destruct (IH (swapStep conn own mint acc s) Hin Hp) as [H3 H4].
    split.
    + eapply Qle_lt_trans; [|exact H3]. apply Qplus_le_l. exact H1.
    + eapply Qle_lt_trans; eassumption.
Qed.

(** X1. One purchase among the 30 most recent transactions of a wallet
    is enough for a history: the SOL total then exceeds
    [GAS_THRESHOLD] and the token total is positive, whatever the other
    entries of the window are (unreadable, transfers, sales). *)
Theorem one_purchase_makes_history conn own mint signatures sig :
  getSignaturesForAddress conn own = Ok signatures ->
  In sig (firstn 30 signatures) ->
  countsAsPurchase conn own mint sig ->
  (GAS_THRESHOLD < totalSolSpent (getSwapHistory conn own mint))%Q /\
  (0 < totalTokensBought (getSwapHistory conn own mint))%Q.
Proof.
  intros Es Hin Hp. unfold getSwapHistory. rewrite Es.
  destruct (fold_swapStep_purchase conn own mint _ noHistory sig Hin Hp)
    as [H1 H2].
  split; [|exact H2].
  eapply Qle_lt_trans; [|exact H1]. cbn. rewrite Qplus_0_l. apply Qle_refl.
Qed.

Lemma one_purchase_makes_history_witness :
  (GAS_THRESHOLD
   < totalSolSpent
       (getSwapHistory (sampleConn (Throw "no price")) "alice" sampleMint))%Q
  /\ (0 < totalTokensBought
            (getSwapHistory (sampleConn (Throw "no price")) "alice"
               sampleMint))%Q.
Proof.
  apply (one_purchase_makes_history (sampleConn (Throw "no price")) "alice"
           sampleMint ["sigAlice"] "sigAlice" eq_refl).
  - left. reflexivity.
  - eexists. split; [reflexivity|]. split; reflexivity.
Defined.

(** X2. The totals of a swap history are never negative, and they are
    positive together: the SOL total is positive exactly when the token
    total is. *)
Theorem history_totals_positive_together conn own mint :
  (0 <= totalSolSpent (getSwapHistory conn own mint))%Q /\
  (0 <= totalTokensBought (getSwapHistory conn own mint))%Q /\
  ((0 < totalSolSpent (getSwapHistory conn own mint))%Q <->
   (0 < totalTokensBought (getSwapHistory conn own mint))%Q).
Proof.
  unfold getSwapHistory.
  destruct (getSignaturesForAddress conn own) as [sigs|];
    [|cbn; repeat split; try apply Qle_refl; intros H; exact H].
  generalize (firstn 30 sigs). clear sigs. intros sigs.
  assert (H : forall acc,
    (0 <= totalSolSpent acc)%Q /\ (0 <= totalTokensBought acc)%Q /\
    ((0 < totalSolSpent acc)%Q <-> (0 < totalTokensBought acc)%Q) ->
    let r := fold_left (swapStep conn own mint) sigs acc in
    (0 <= totalSolSpent r)%Q /\ (0 <= totalTokensBought r)%Q /\
    ((0 < totalSolSpent r)%Q <-> (0 < totalTokensBought r)%Q)).
  { induction sigs as [|s sigs IH]; intros acc Hacc; [exact Hacc|].
    cbn [fold_left]. apply IH. clear IH.
    destruct Hacc as (Hs & Hb & Hiff). unfold swapStep.
    destruct (getParsedTransaction conn s) as [[tx|]|];
      try (repeat split; tauto).
    destruct (Qle_bool (tokenDelta tx own mint) 0) eqn:Ed;
      [repeat split; tauto|].
    destruct (Qltb GAS_THRESHOLD (solSpent tx own)) eqn:Eg;
      [|repeat split; tauto].
    apply Qle_bool_false in Ed. apply Qltb_lt in Eg. cbn.
    assert (Hg : (0 < solSpent tx own)%Q).
    { eapply Qlt_trans; [|exact Eg]. reflexivity. }
    assert (P1 : (0 < totalSolSpent acc + solSpent tx own)%Q) by lra.
    assert (P2 : (0 < totalTokensBought acc + tokenDelta tx own mint)%Q)
      by lra.
    repeat split; try (apply Qlt_le_weak; assumption); intros _; assumption. }
  apply H. cbn. repeat split; try apply Qle_refl; intros H0; exact H0.
Qed.

(** ** The ranked output, record by record *)

(** Where a ranked record comes from. *)
Lemma ranked_holder_origin cfg bot m conn c accounts hs h :
  getParsedProgramAccounts conn = Ok accounts ->
  getHolders cfg bot m conn c = Ok hs ->
  In h hs ->
  (wallet h ∉ EXCLUDED) /\ wallet h <> bot /\ (0 < balance h)%Q /\
  exists account i t,
    In account accounts /\ info account = Some i /\
    tokenAmount i = Some t /\
    wallet h = owner i /\ ata h = pubkey account /\
    balance h = uiAmountString t /\ balanceRaw h = amount t.
Proof.
  intros Ha Hg Hh.
  apply (In_getHolders _ _ _ _ _ _ _ _ Ha Hg) in Hh as [Hh _].
  apply In_scanHolders in Hh as (account & Hacc & Hs).
  apply scanAccount_Some in Hs as (i & Hi & -> & Hb & Hex & Hbot & _).
  cbn. repeat split; try assumption.
  destruct (tokenAmount i) as [t|] eqn:Et.
  - exists account, i, t. repeat split; assumption.
  - exfalso. exact (Qlt_irrefl _ Hb).
Qed.

(** X3. The ranker never returns an infrastructure address of
    [EXCLUDED], the bot's own wallet, or an account with a balance that
    is not positive; and every record it returns is that of a token
    account of the ledger, with the balance the ledger gives. *)
Theorem ranked_wallets_are_outsiders cfg bot m conn c accounts hs h :
  getParsedProgramAccounts conn = Ok accounts ->
  getHolders cfg bot m conn c = Ok hs ->
  In h hs ->
  (wallet h ∉ EXCLUDED) /\ wallet h <> bot /\ (0 < balance h)%Q /\
  exists account i t,
    In account accounts /\ info account = Some i /\
    tokenAmount i = Some t /\
    wallet h = owner i /\ ata h = pubkey account /\
    balance h = uiAmountString t /\ balanceRaw h = amount t.
Proof. exact (ranked_holder_origin cfg bot m conn c accounts hs h). Qed.

Lemma ranked_wallets_are_outsiders_witness :
  exists hs,
    getHolders sampleConfig "bob" (recordWinner ∅ "erin" 1)
      (sampleConn (Ok (Some (1 # 100)%Q))) (Some 2) = Ok hs /\
    forall h, In h hs -> (wallet h ∉ EXCLUDED) /\ wallet h <> "bob".
Proof.
  eexists. split; [reflexivity|]. intros h Hh.
  destruct (ranked_wallets_are_outsiders sampleConfig "bob"
              (recordWinner ∅ "erin" 1)
              (sampleConn (Ok (Some (1 # 100)%Q))) (Some 2) _ _ h
              eq_refl eq_refl Hh) as (H1 & H2 & _).
  split; assumption.
Defined.

Lemma Qmin_cases (a b : Q) :
  (Qmin a b == a /\ a <= b)%Q \/ (Qmin a b == b /\ b <= a)%Q.
Proof.
  destruct (Q.min_spec_le a b) as [[H1 H2]|[H1 H2]]; [left|right];
    split; assumption.
Qed.

(** X4. Every record the ranker returns keeps within bounds: the
    retained ratio is in (0, 1], the cost basis is positive and at most
    what the swaps cost, the current value reaches the floor
    [MIN_VALUE_SOL] and is at most the balance at the current price;
    and the price the ranker used was positive. *)
Theorem ranked_record_bounds cfg bot m conn c accounts hs h :
  getParsedProgramAccounts conn = Ok accounts ->
  getHolders cfg bot m conn c = Ok hs ->
  In h hs ->
  (0 < retainedRatio h <= 1)%Q /\
  (0 < costBasis h
   <= totalSolSpent (getSwapHistory conn (wallet h) (TOKEN_MINT cfg)))%Q /\
  (MIN_VALUE_SOL <= currentValue h <= balance h * getPrice conn)%Q /\
  (0 < getPrice conn)%Q.
Proof.
  intros Ha Hg Hh.
  apply (In_getHolders _ _ _ _ _ _ _ _ Ha Hg) in Hh as [Hh He].
  apply isEligible_floor in He.
  apply In_scanHolders in Hh as (account & _ & Hs).
  apply scanAccount_Some in Hs as (i & _ & -> & Hb & _ & _ & Hbt & Hsp).
  cbn in *.
  set (bal := match tokenAmount i with
              | Some t => uiAmountString t
              | None => 0%Q
              end) in *.
  set (hist := getSwapHistory conn (owner i) (TOKEN_MINT cfg)) in *.
  set (bought := totalTokensBought hist) in *.
  set (spent := totalSolSpent hist) in *.
  assert (Hratio : (0 < bal / bought)%Q).
  { apply Qlt_shift_div_l; [exact Hbt|]. rewrite Qmult_0_l. exact Hb. }
  assert (Hr : (0 < Qmin 1 (bal / bought) <= 1)%Q).
  { destruct (Qmin_cases 1 (bal / bought)) as [[E _]|[E L]]; rewrite E;
      split; try assumption; try reflexivity; apply Qle_refl. }
  assert (Hmin : (0 < Qmin bal bought <= bal)%Q).
  { destruct (Qmin_cases bal bought) as [[E L]|[E L]]; rewrite E;
      split; try assumption; apply Qle_refl. }
  assert (Hprice : (0 < getPrice conn)%Q).
  { destruct (Qlt_le_dec 0 (getPrice conn)) as [Hp|Hp]; [exact Hp|].
    exfalso. unfold MIN_VALUE_SOL in He.
    assert (H0 : (0 <= Qmin bal bought * - getPrice conn)%Q)
      by (apply Qmult_le_0_compat; lra).
    assert (E : (Qmin bal bought * - getPrice conn
                 == - (Qmin bal bought * getPrice conn))%Q) by ring.
    lra. }
  split; [exact Hr|]. split; [|split; [|exact Hprice]].
  - split.
    + apply Qmult_lt_0_compat; [exact Hsp | apply Hr].
    + assert (H1 : (spent * Qmin 1 (bal / bought) <= spent * 1)%Q)
        by (apply Qmult_le_l; [exact Hsp | apply Hr]).
      lra.
  - split; [exact He|].
    apply Qmult_le_r; [exact Hprice | apply Hmin].
Qed.

Lemma ranked_record_bounds_witness :
  exists hs,
    getHolders sampleConfig "bob" (recordWinner ∅ "erin" 1)
      (sampleConn (Ok (Some (1 # 100)%Q))) (Some 2) = Ok hs /\
    forall h, In h hs -> (0 < retainedRatio h <= 1)%Q.
Proof.
  eexists. split; [reflexivity|]. intros h Hh.
  destruct (ranked_record_bounds sampleConfig "bob"
              (recordWinner ∅ "erin" 1)
              (sampleConn (Ok (Some (1 # 100)%Q))) (Some 2) _ _ h
              eq_refl eq_refl Hh) as (H1 & _).
  exact H1.
Defined.

(** X5. Sorting neither loses nor invents records: the output is a
    permutation of the scanned records that pass the floor and the
    cooldown, so it has at most one record per token account. *)
Theorem ranked_output_is_permutation cfg bot m conn c accounts hs :
  getParsedProgramAccounts conn = Ok accounts ->
  getHolders cfg bot m conn c = Ok hs ->
  Permutation hs
    (List.filter (isEligible m c)
       (scanHolders conn (TOKEN_MINT cfg) bot (getPrice conn) accounts)) /\
  (length hs <= length accounts)%nat.
Proof.
  intros Ha. rewrite (getHolders_Ok _ _ _ _ _ _ Ha). intros [= <-].
  assert (P := arraySort_perm pnl
    (List.filter (isEligible m c)
       (scanHolders conn (TOKEN_MINT cfg) bot (getPrice conn) accounts))).
  split; [exact P|].
  unfold byPnl. rewrite (Permutation_length P).
  etransitivity; [apply List.filter_length_le|].
  unfold scanHolders. clear.
  induction accounts as [|a accounts IH]; [reflexivity|].
  cbn. destruct (scanAccount _ _ _ _ a); cbn; lia.
Qed.

Lemma ranked_output_is_permutation_witness :
  exists hs,
    getHolders sampleConfig "bob" (recordWinner ∅ "erin" 1)
      (sampleConn (Ok (Some (1 # 100)%Q))) (Some 2) = Ok hs /\
    (length hs <= 4)%nat.
Proof.
  eexists. split; [reflexivity|].
  apply (ranked_output_is_permutation sampleConfig "bob"
           (recordWinner ∅ "erin" 1)
           (sampleConn (Ok (Some (1 # 100)%Q))) (Some 2) _ _
           eq_refl eq_refl).
Defined.

(** ** Looking the owner up in the account keys *)

Lemma ownerIndex_from owner keys i :
  (In owner keys ->
   exists p,
     ownerIndex owner keys i = (i + p)%nat /\
     nth_error keys p = Some owner /\
     forall j, (j < p)%nat -> nth_error keys j <> Some owner) /\
  (~ In owner keys -> ownerIndex owner keys i = O).
Proof.
  revert i. induction keys as [|k keys IH]; intros i.
  - split; [intros []|reflexivity].
  - cbn [ownerIndex]. destruct (String.eqb_spec k owner) as [->|Hne].
    + split.
      * intros _. exists O. split; [lia|]. split; [reflexivity|].
        intros j Hj. lia.
      * intros H. exfalso. apply H. left. reflexivity.
    + destruct (IH (S i)) as [IH1 IH2]. split.
      * intros [E|Hin]; [contradiction|].
        destruct (IH1 Hin) as (p & Ep & Hp & Hfirst).
        exists (S p). split; [lia|]. split; [exact Hp|].
        intros [|j] Hj; cbn.
        -- intros [= E]. contradiction.
        -- apply Hfirst. lia.
      * intros H. apply IH2. intros Hin. apply H. right. exact Hin.
Qed.

(** X6. The SOL a transaction cost a wallet is read at the first index
    where the wallet stands in [accountKeys]; for a wallet that is not
    among the keys it is read at index 0: the balance change of the
    first account (the fee payer) is then taken for the wallet's. *)
Theorem solSpent_reads_owner_or_first tx own :
  (In own (accountKeys tx) ->
   exists p,
     nth_error (accountKeys tx) p = Some own /\
     (forall j, (j < p)%nat -> nth_error (accountKeys tx) j <> Some own) /\
     solSpent tx own =
     (inject_Z (nth p (preBalances tx) 0%Z) / 1000000000
      - inject_Z (nth p (postBalances tx) 0%Z) / 1000000000)%Q) /\
  (~ In own (accountKeys tx) ->
   solSpent tx own =
   (inject_Z (nth 0 (preBalances tx) 0%Z) / 1000000000
    - inject_Z (nth 0 (postBalances tx) 0%Z) / 1000000000)%Q).
Proof.
  destruct (ownerIndex_from own (accountKeys tx) O) as [H1 H2].
  unfold solSpent. split.
  - intros Hin. destruct (H1 Hin) as (p & Ep & Hp & Hfirst).
    exists p. rewrite Ep. repeat split; assumption.
  - intros Hnin. rewrite (H2 Hnin). reflexivity.
Qed.

Lemma solSpent_reads_owner_or_first_witness :
  solSpent (transferInTx "dave" "carol" 5000) "erin" =
  (inject_Z 1000000000 / 1000000000 - inject_Z 999995000 / 1000000000)%Q.
Proof.
  apply (proj2 (solSpent_reads_owner_or_first
                  (transferInTx "dave" "carol" 5000) "erin")).
  cbn. intros [H|[H|[]]]; discriminate.
Defined.

(** ** The cooldown map *)

(** X7. Recording a win touches one wallet: the cooldown of every other
    wallet is as before; and of two wins of one wallet only the later
    one counts. *)
Theorem recordWinner_touches_one_wallet (m : gmap string Z) w k w' c :
  w <> w' ->
  isOnCooldown (recordWinner m w k) w' c = isOnCooldown m w' c /\
  forall k', recordWinner (recordWinner m w k) w k' = recordWinner m w k'.
Proof.
  intros Hne. split.
  - unfold isOnCooldown, recordWinner. rewrite lookup_insert_ne by exact Hne.
    reflexivity.
  - intros k'. unfold recordWinner. apply insert_insert_eq.
Qed.

Lemma recordWinner_touches_one_wallet_witness :
  isOnCooldown (recordWinner (recordWinner ∅ "alice" 1) "bob" 2) "alice" 3
  = isOnCooldown (recordWinner ∅ "alice" 1) "alice" 3.
Proof.
  apply (recordWinner_touches_one_wallet (recordWinner ∅ "alice" 1)
           "bob" 2 "alice" 3).
  discriminate.
Defined.

(** ** The fee claimer *)

(** What is usable of a balance of [b] lamports once the gas reserve is
    set aside: nothing unless the balance exceeds the reserve. *)
Lemma available_spec (b : Z) :
  let available :=
    Qmax 0 (inject_Z b / LAMPORTS_PER_SOL - RESERVE_SOL) in
  (0 <= available)%Q /\ ((0 < available)%Q -> 10000000 < b).
Proof.
  cbv zeta.
  destruct (Q.max_spec 0 (inject_Z b / LAMPORTS_PER_SOL - RESERVE_SOL))
    as [[Hlt E]|[Hle E]]; rewrite E.
  - split; [apply Qlt_le_weak, Hlt|]. intros _.
    unfold LAMPORTS_PER_SOL, RESERVE_SOL in *.
    revert Hlt. unfold Qlt, Qminus, Qplus, Qdiv, Qmult, Qinv, Qopp,
      inject_Z. cbn. lia.
  - split; [apply Qle_refl|]. intros H. exfalso. exact (Qlt_irrefl _ H).
Qed.

(** What the fee claimer returns, case by case. *)
Lemma claimFees_value cfg net w :
  match claimFees cfg net w with
  | (Ok q, w') =>
      (0 <= q)%Q /\
      ((0 < q)%Q ->
       exists b,
         getBalance net = Ok b /\ 10000000 < b /\
         (isOnBondingCurve net = false -> (MIN_FEE_SOL cfg <= q)%Q))
  | (Throw e, w') =>
      isOnBondingCurve net = false /\ getBalance net = Throw e /\ w' = w
  end.
Proof.
  assert (Hzero : (0 <= 0)%Q /\
    ((0 < 0)%Q -> exists b, getBalance net = Ok b /\ 10000000 < b /\
       (isOnBondingCurve net = false -> (MIN_FEE_SOL cfg <= 0)%Q))).
  { split; [apply Qle_refl|]. intros H. exfalso. exact (Qlt_irrefl _ H). }
  unfold claimFees, withdrawPumpFunFees, bind, tryCatch, await, ret,
    sendAndConfirm.
  destruct (isOnBondingCurve net) eqn:Ecurve.
  - destruct (bondingCurveInfo net) as [[a|]|]; try exact Hzero.
    destruct (Qltb _ (1 # 1000)); [exact Hzero|].
    destruct (withdrawOutcome net); [|exact Hzero].
    destruct (getBalance net) as [b|] eqn:Eb; [|exact Hzero].
    destruct (available_spec b) as [H0 H1]. split; [exact H0|].
    intros Hpos. exists b. repeat split; [apply H1, Hpos|discriminate].
  - destruct (getBalance net) as [b|e] eqn:Eb; [|repeat split].
    cbv zeta. destruct (Qltb _ (MIN_FEE_SOL cfg)) eqn:Emin; [exact Hzero|].
    destruct (available_spec b) as [H0 H1]. split; [exact H0|].
    intros Hpos. exists b. repeat split; [apply H1, Hpos|].
    intros _. apply Qltb_ge, Emin.
Qed.

(** X8. The fee claimer hands out nothing of a balance that does not
    exceed the gas reserve: what it returns is never negative, and it is
    positive only when the balance it read is above 10,000,000 lamports
    (0.01 SOL); when the token has migrated a positive amount is at
    least [MIN_FEE_SOL]. It throws in one case only: the token has
    migrated and the balance cannot be read; nothing was submitted
    then. *)
Theorem claimFees_nothing_below_reserve cfg net w :
  match claimFees cfg net w with
  | (Ok q, w') =>
      (0 <= q)%Q /\
      ((0 < q)%Q ->
       exists b,
         getBalance net = Ok b /\ 10000000 < b /\
         (isOnBondingCurve net = false -> (MIN_FEE_SOL cfg <= q)%Q))
  | (Throw e, w') =>
      isOnBondingCurve net = false /\ getBalance net = Throw e /\ w' = w
  end.
Proof. exact (claimFees_value cfg net w). Qed.

Lemma claimFees_nothing_below_reserve_witness :
  exists b,
    getBalance
      (sampleNet (Some {| lamports := 2000000; dataLength := 150 |})
         12000000 (Ok "sigSend")) = Ok b /\
    10000000 < b.
Proof.
  pose proof (claimFees_nothing_below_reserve sampleConfig
                (sampleNet (Some {| lamports := 2000000; dataLength := 150 |})
                   12000000 (Ok "sigSend")) startWorld) as H.
  destruct (claimFees _ _ _) as [[q|e] w'] eqn:E in H;
    vm_compute in E; [|discriminate].
  injection E as <- <-. destruct H as [_ H].
  destruct (H eq_refl) as (b & Eb & Hb & _).
  exists b. split; [exact Eb | exact Hb].
Defined.

Lemma curve_dust_lamports (l : Z) :
  Qltb (inject_Z l / LAMPORTS_PER_SOL) (1 # 1000) = (l <? 1000000).
Proof.
  unfold LAMPORTS_PER_SOL. destruct (Z.ltb_spec l 1000000) as [H|H].
  - apply Qltb_lt. unfold Qlt, Qdiv, Qmult, Qinv, inject_Z. cbn. lia.
  - apply Qltb_ge. unfold Qle, Qdiv, Qmult, Qinv, inject_Z. cbn. lia.
Qed.

(** X9. The withdrawal from the bonding curve never throws. It submits
    nothing and returns 0 when the curve account cannot be read, is
    absent or holds less than 1,000,000 lamports (0.001 SOL); otherwise
    it submits the one withdraw transaction, and returns 0 if that
    transaction or the reading of the balance after it fails. *)
Theorem withdraw_never_throws net w :
  exists q w',
    withdrawPumpFunFees net w = (Ok q, w') /\
    cycleCount w' = cycleCount w /\
    recentWinners w' = recentWinners w /\
    match bondingCurveInfo net with
    | Ok (Some a) =>
        if lamports a <? 1000000
        then submitted w' = submitted w /\ q = 0%Q
        else
          match withdrawOutcome net, getBalance net with
          | Ok _, Ok b =>
              submitted w' =
              (submitted w
               ++ [{| instructions := [IxWithdraw]; confirmed := true |}])%list
              /\ q = Qmax 0 (inject_Z b / LAMPORTS_PER_SOL - RESERVE_SOL)
          | Ok _, Throw _ =>
              submitted w' =
              (submitted w
               ++ [{| instructions := [IxWithdraw]; confirmed := true |}])%list
              /\ q = 0%Q
          | Throw _, _ =>
              submitted w' =
              (submitted w
               ++ [{| instructions := [IxWithdraw]; confirmed := false |}])%list
              /\ q = 0%Q
          end
    | Ok None => submitted w' = submitted w /\ q = 0%Q
    | Throw _ => submitted w' = submitted w /\ q = 0%Q
    end.
Proof.
  unfold withdrawPumpFunFees, bind, tryCatch, await, ret, sendAndConfirm.
  destruct (bondingCurveInfo net) as [[a|]|];
    try (eexists _, _; repeat split; reflexivity).
  rewrite curve_dust_lamports.
  destruct (lamports a <? 1000000);
    [eexists _, _; repeat split; reflexivity|].
  destruct (withdrawOutcome net);
    [|eexists _, _; repeat split; reflexivity].
  destruct (getBalance net); eexists _, _; repeat split; reflexivity.
Qed.

(** ** The swap *)

(** What [buyTokens] returns and submits, case by case. *)
Lemma buyTokens_cases net solAmount w :
  let l := Qfloor (solAmount * LAMPORTS_PER_SOL) in
  match buyTokens net solAmount w with
  | (Ok n, w') =>
      n <> 0 /\ quoteOutAmount net l = Ok (Some n) /\
      swapTransaction net = Ok true /\
      submitted w' =
      (submitted w
       ++ [{| instructions := [IxSwap l]; confirmed := true |}])%list
  | (Throw e, w') =>
      submitted w' = submitted w
      \/ (swapOutcome net = Throw e /\
          submitted w' =
          (submitted w
           ++ [{| instructions := [IxSwap l]; confirmed := false |}])%list)
  end.
Proof.
  cbv zeta. unfold buyTokens, bind, throw, await, ret, sendAndConfirm.
  destruct (quoteOutAmount net _) as [[n|]|] eqn:Eq; try (left; reflexivity).
  destruct (Z.eqb_spec n 0) as [E|Hn]; [left; reflexivity|].
  destruct (swapTransaction net) as [[|]|]; try (left; reflexivity).
  cbn [negb]. destruct (swapOutcome net) as [sig|e] eqn:Es.
  - repeat split; try assumption; reflexivity.
  - right. split; reflexivity.
Qed.


(** ** The distribution *)

Lemma isSendTx_tokens r a s : isSendTx r a s -> txTokens s = a.
Proof. unfold txTokens. intros [E|E]; rewrite E; cbn; lia. Qed.

Lemma isBurnTx_tokens cfg a s : isBurnTx cfg a s -> txTokens s = a.
Proof.
  unfold isBurnTx. destruct (BURN_METHOD cfg).
  - unfold txTokens. intros E. rewrite E. cbn. lia.
  - apply isSendTx_tokens.
Qed.

(** X11. A distribution accounts for every raw token it was given: when
    both transactions are confirmed, the tokens that left the operator's
    account are exactly [totalRaw], whatever its parity; when the send
    is confirmed and the burn fails, they are the half that was sent,
    and the other half, rounded up, stays with the operator; when the
    send fails, nothing left. *)
Theorem distribute_accounts_for_total cfg net recipient totalRaw w :
  exists r w' log,
    distribute cfg net recipient totalRaw w = (r, w') /\
    submitted w' = (submitted w ++ log)%list /\
    tokensOut log =
    match sendOutcome net, burnOutcome net with
    | Ok _, Ok _ => totalRaw
    | Ok _, Throw _ => Z.quot totalRaw 2
    | Throw _, _ => 0
    end.
Proof.
  destruct (distribute_spec cfg net recipient totalRaw w)
    as (w' & log & E & _ & _ & _ & Hs & s1 & Hsend & Hlog).
  eexists _, w', log. split; [exact E|]. split; [exact Hs|].
  apply isSendTx_tokens in Hsend. unfold txTokens in Hsend.
  destruct (sendOutcome net).
  - destruct Hlog as (Hc1 & s2 & -> & Hburn & Hc2).
    apply isBurnTx_tokens in Hburn. unfold txTokens in Hburn.
    cbn [tokensOut fold_right]. rewrite Hc1, Hc2, Hsend.
    destruct (burnOutcome net); [rewrite Hburn|]; unfold split; cbn; lia.
  - destruct Hlog as (-> & Hc). cbn. rewrite Hc. reflexivity.
Qed.

(** ** One cycle, step by step *)

(** [w] with the cycle counter moved on by one. *)
Lemma runCycle_steps cfg bot conn net w :
  let w1 := {| cycleCount := cycleCount w + 1;
               recentWinners := recentWinners w;
               lastRecipient := lastRecipient w;
               submitted := submitted w |} in
  runCycle cfg bot conn net w =
  match getHolders cfg bot (recentWinners w) conn (Some (cycleCount w + 1))
  with
  | Throw e => (Ok (CycleFailed e), w1)
  | Ok [] => (Ok NoHolders, w1)
  | Ok (topLoser :: _) =>
      if Qle_bool 0 (pnl topLoser) then (Ok EveryoneInProfit, w1)
      else
        match claimFees cfg net w1 with
        | (Throw e, w2) => (Ok (CycleFailed e), w2)
        | (Ok solAvailable, w2) =>
            if Qle_bool solAvailable 0 then (Ok NoFees, w2)
            else
              match buyTokens net solAvailable w2 with
              | (Throw e, w3) => (Ok (CycleFailed e), w3)
              | (Ok tokensReceived, w3) =>
                  if tokensReceived =? 0 then (Ok ZeroTokens, w3)
                  else
                    match distribute cfg net (wallet topLoser)
                            tokensReceived w3 with
                    | (Throw e, w4) => (Ok (CycleFailed e), w4)
                    | (Ok tx, w4) =>
                        (Ok (CycleComplete (wallet topLoser)),
                         {| cycleCount := cycleCount w4;
                            recentWinners :=
                              recordWinner (recentWinners w4)
                                (wallet topLoser) (cycleCount w4);
                            lastRecipient :=
                              Some
                                {| lr_wallet := wallet topLoser;
                                   lr_amount :=
                                     (inject_Z (Z.quot tokensReceived 2)
                                      / Qpower (inject_Z 10)
                                          (getDecimals net))%Q;
                                   lr_burnTx := snd tx |};
                            submitted := submitted w4 |})
                    end
              end
        end
  end.
Proof.
  cbv zeta. unfold_cycle.
  destruct (getHolders _ _ _ _ _) as [[|topLoser rest]|e]; try reflexivity.
  destruct (Qle_bool 0 (pnl topLoser)); [reflexivity|].
  destruct (claimFees _ _ _) as [[solAvailable|e] w2]; [|reflexivity].
  destruct (Qle_bool solAvailable 0); [reflexivity|].
  destruct (buyTokens _ _ _) as [[tokensReceived|e] w3]; [|reflexivity].
  destruct (tokensReceived =? 0); [reflexivity|].
  destruct (distribute _ _ _ _ _) as [[tx|e] w4]; reflexivity.
Qed.

Lemma getHolders_sorted cfg bot m conn c hs :
  getHolders cfg bot m conn c = Ok hs -> ascending pnl hs.
Proof.
  unfold getHolders.
  destruct (getParsedProgramAccounts conn) as [accounts|]; [|discriminate].
  intros [= <-]. apply (arraySort_ascending pnl).
Qed.

Lemma getHolders_accounts cfg bot m conn c hs :
  getHolders cfg bot m conn c = Ok hs ->
  exists accounts, getParsedProgramAccounts conn = Ok accounts.
Proof.
  unfold getHolders.
  destruct (getParsedProgramAccounts conn) as [accounts|]; [|discriminate].
  intros _. exists accounts. reflexivity.
Qed.

Lemma ascending_head {A} (key : A -> Q) x l :
  ascending key (x :: l) -> forall y, In y (x :: l) -> (key x <= key y)%Q.
Proof.
  intros H y [<-|Hy]; [apply Qle_refl|].
  apply StronglySorted_inv in H as [_ H].
  rewrite List.Forall_forall in H. apply H, Hy.
Qed.

(** X12. A cycle that ends with no holders or with everyone in profit
    has claimed, bought and distributed nothing: the log of submitted
    transactions, the cooldown map and the last recipient are as they
    were, only the counter moved. And "everyone in profit" is reported
    only when no ranked holder is at a loss. *)
Theorem skipped_cycle_submits_nothing cfg bot conn net w out w' :
  runCycle cfg bot conn net w = (Ok out, w') ->
  out = NoHolders \/ out = EveryoneInProfit ->
  submitted w' = submitted w /\
  recentWinners w' = recentWinners w /\
  lastRecipient w' = lastRecipient w /\
  cycleCount w' = cycleCount w + 1 /\
  exists hs,
    getHolders cfg bot (recentWinners w) conn (Some (cycleCount w + 1))
    = Ok hs /\
    (out = NoHolders -> hs = []) /\
    (out = EveryoneInProfit -> forall h, In h hs -> (0 <= pnl h)%Q).
Proof.
  rewrite runCycle_steps. cbv zeta.
  destruct (getHolders _ _ _ _ _) as [[|topLoser rest]|e] eqn:Eh.
  - intros [= <- <-] _. repeat split. exists []. split; [reflexivity|].
    split; [reflexivity|]. intros _ h [].
  - destruct (Qle_bool 0 (pnl topLoser)) eqn:Ep.
    + intros [= <- <-] _. repeat split. eexists. split; [reflexivity|].
      split; [discriminate|]. intros _ h Hh.
      apply Qle_bool_iff in Ep. eapply Qle_trans; [exact Ep|].
      eapply (ascending_head pnl); [|exact Hh].
      eapply getHolders_sorted, Eh.
    + destruct (claimFees _ _ _) as [[solAvailable|e] w2];
        [|intros [= <- <-] [|]; discriminate].
      destruct (Qle_bool solAvailable 0);
        [intros [= <- <-] [|]; discriminate|].
      destruct (buyTokens _ _ _) as [[tokensReceived|e] w3];
        [|intros [= <- <-] [|]; discriminate].
      destruct (tokensReceived =? 0);
        [intros [= <- <-] [|]; discriminate|].
      destruct (distribute _ _ _ _ _) as [[tx|e] w4];
        intros [= <- <-] [|]; discriminate.
  - intros [= <- <-] [|]; discriminate.
Qed.

Lemma skipped_cycle_submits_nothing_witness :
  exists w',
    runCycle sampleConfig "" (sampleConn (Throw "no price"))
      (sampleNet None 112000000 (Ok "sigSend")) startWorld
    = (Ok NoHolders, w') /\
    submitted w' = submitted startWorld.
Proof.
  eexists. split; [reflexivity|].
  apply (skipped_cycle_submits_nothing sampleConfig ""
           (sampleConn (Throw "no price"))
           (sampleNet None 112000000 (Ok "sigSend")) startWorld
           NoHolders _ eq_refl).
  left. reflexivity.
Defined.

(** X13. No cycle ends on the zero-tokens line: [buyTokens] throws on a
    zero quote, so the test [tokensReceived === 0n] of [runCycle] never
    succeeds, and a zero quote ends the cycle as a failure. *)
Theorem cycle_never_ends_zero_tokens cfg bot conn net w :
  fst (runCycle cfg bot conn net w) <> Ok ZeroTokens.
Proof.
  rewrite runCycle_steps. cbv zeta.
  destruct (getHolders _ _ _ _ _) as [[|topLoser rest]|e];
    try discriminate.
  destruct (Qle_bool 0 (pnl topLoser)); [discriminate|].
  destruct (claimFees _ _ _) as [[solAvailable|e] w2]; [|discriminate].
  destruct (Qle_bool solAvailable 0); [discriminate|].
  pose proof (buyTokens_cases net solAvailable w2) as Hb. cbv zeta in Hb.
  destruct (buyTokens _ _ _) as [[tokensReceived|e] w3]; [|discriminate].
  destruct Hb as (Hn & _).
  destruct (Z.eqb_spec tokensReceived 0) as [E|_]; [contradiction|].
  destruct (distribute _ _ _ _ _) as [[tx|e] w4]; discriminate.
Qed.

Lemma swapLamports_app l1 l2 :
  swapLamports (l1 ++ l2) = (swapLamports l1 ++ swapLamports l2)%list.
Proof. unfold swapLamports. apply flat_map_app. Qed.

Lemma swapLamports_withdraws log :
  Forall isWithdrawTx log -> swapLamports log = [].
Proof.
  induction 1 as [|s log Hs _ IH]; [reflexivity|].
  cbn. fold (swapLamports log). rewrite IH, Hs. reflexivity.
Qed.

Lemma swapLamports_distribute cfg net recipient total log :
  distributeLog cfg net recipient total log -> swapLamports log = [].
Proof.
  assert (Hsend : forall r a s, isSendTx r a s -> swapLamports [s] = []).
  { intros r a s [E|E]; cbn; rewrite E; reflexivity. }
  assert (Hburn : forall a s, isBurnTx cfg a s -> swapLamports [s] = []).
  { intros a s. unfold isBurnTx. destruct (BURN_METHOD cfg).
    - intros E. cbn. rewrite E. reflexivity.
    - apply Hsend. }
  intros (s1 & H1 & Hlog). destruct (sendOutcome net).
  - destruct Hlog as (_ & s2 & -> & H2 & _).
    change [s1; s2] with ([s1] ++ [s2])%list.
    rewrite swapLamports_app, (Hsend _ _ _ H1), (Hburn _ _ H2). reflexivity.
  - destruct Hlog as (-> & _). eapply Hsend, H1.
Qed.

(** X14. A cycle submits at most one swap, and it submits one only
    when the balance the fee claimer read is above 10,000,000 lamports:
    with no more than the gas reserve in the operator's account nothing
    is swapped. *)
Theorem cycle_swaps_only_above_reserve cfg bot conn net w :
  exists new,
    submitted (snd (runCycle cfg bot conn net w))
    = (submitted w ++ new)%list /\
    (length (swapLamports new) <= 1)%nat /\
    (swapLamports new <> [] ->
     exists b, getBalance net = Ok b /\ 10000000 < b).
Proof.
  assert (Hnil : forall w0 : World,
    exists new, submitted w0 = (submitted w0 ++ new)%list /\
      (length (swapLamports new) <= 1)%nat /\
      (swapLamports new <> [] ->
       exists b, getBalance net = Ok b /\ 10000000 < b)).
  { intros w0. exists []. split; [symmetry; apply app_nil_r|].
    split; [cbn; lia|]. intros H. contradiction. }
  rewrite runCycle_steps. cbv zeta.
  destruct (getHolders _ _ _ _ _) as [[|topLoser rest]|e];
    try exact (Hnil w).
  destruct (Qle_bool 0 (pnl topLoser)); [exact (Hnil w)|].
  set (w1 := {| cycleCount := cycleCount w + 1;
                recentWinners := recentWinners w;
                lastRecipient := lastRecipient w;
                submitted := submitted w |}).
  pose proof (claimFees_value cfg net w1) as Hfee.
  destruct (claimFees cfg net w1) as [r2 w2] eqn:Ec.
  destruct (claimFees_framed _ _ _ _ _ Ec) as [_ _ _ (n2 & s2 & f2)].
  cbn [submitted w1] in s2.
  apply swapLamports_withdraws in f2.
  assert (Hearly : exists new,
    submitted w2 = (submitted w ++ new)%list /\
    (length (swapLamports new) <= 1)%nat /\
    (swapLamports new <> [] ->
     exists b, getBalance net = Ok b /\ 10000000 < b)).
  { exists n2. rewrite f2. split; [exact s2|]. split; [cbn; lia|].
    intros H. contradiction. }
  destruct r2 as [solAvailable|e]; [|exact Hearly].
  destruct (Qle_bool solAvailable 0) eqn:Epos; [exact Hearly|].
  apply Qle_bool_false in Epos.
  destruct Hfee as (_ & Hfee).
  destruct (Hfee Epos) as (b & Eb & Hb & _).
  assert (Hbal : exists b0, getBalance net = Ok b0 /\ 10000000 < b0)
    by (exists b; split; assumption).
  pose proof (buyTokens_cases net solAvailable w2) as Hbuy.
  cbv zeta in Hbuy.
  destruct (buyTokens net solAvailable w2) as [[tokensReceived|e] w3].
  2: { cbn [snd]. destruct Hbuy as [E|(_ & E)].
       - rewrite E. exact Hearly.
       - eexists. split; [rewrite E, s2, <- app_assoc; reflexivity|].
         split; [rewrite swapLamports_app, f2; cbn; lia|].
         intros _. exact Hbal. }
  destruct Hbuy as (_ & _ & _ & E3).
  destruct (tokensReceived =? 0).
  { cbn [snd]. eexists.
    split; [rewrite E3, s2, <- app_assoc; reflexivity|].
    split; [rewrite swapLamports_app, f2; cbn; lia|].
    intros _. exact Hbal. }
  destruct (distribute_spec cfg net (wallet topLoser) tokensReceived w3)
    as (w4 & log & Ed & _ & _ & _ & s4 & Hlog).
  rewrite Ed. apply swapLamports_distribute in Hlog.
  assert (Hall : exists new,
    submitted w4 = (submitted w ++ new)%list /\
    (length (swapLamports new) <= 1)%nat /\
    (swapLamports new <> [] ->
     exists b, getBalance net = Ok b /\ 10000000 < b)).
  { eexists. split.
    - rewrite s4, E3, s2, <- !app_assoc. reflexivity.
    - rewrite app_assoc, swapLamports_app, Hlog, app_nil_r.
      split; [rewrite swapLamports_app, f2; cbn; lia|].
      intros _. exact Hbal. }
  destruct (sendOutcome net); [destruct (burnOutcome net)|]; exact Hall.
Qed.

Lemma cycle_swaps_only_above_reserve_witness :
  exists b,
    getBalance (sampleNet None 112000000 (Ok "sigSend")) = Ok b /\
    10000000 < b.
Proof.
  destruct (cycle_swaps_only_above_reserve sampleConfig ""
              (sampleConn (Ok (Some (1 # 100)%Q)))
              (sampleNet None 112000000 (Ok "sigSend")) startWorld)
    as (new & E & _ & H).
  apply H. vm_compute in E. apply app_inv_head with (l := []) in E.
  subst new. discriminate.
Defined.

(** What a completed cycle tells about the world it started in. *)
Lemma runCycle_complete_inv cfg bot conn net w r w' :
  runCycle cfg bot conn net w = (Ok (CycleComplete r), w') ->
  exists topLoser rest,
    getHolders cfg bot (recentWinners w) conn (Some (cycleCount w + 1))
    = Ok (topLoser :: rest) /\
    wallet topLoser = r /\
    (pnl topLoser < 0)%Q /\
    cycleCount w' = cycleCount w + 1 /\
    recentWinners w' = recordWinner (recentWinners w) r (cycleCount w + 1) /\
    exists amount burnTx,
      lastRecipient w' =
      Some {| lr_wallet := r; lr_amount := amount; lr_burnTx := burnTx |}.
Proof.
  rewrite runCycle_steps. cbv zeta.
  destruct (getHolders _ _ _ _ _) as [[|topLoser rest]|e];
    try discriminate.
  destruct (Qle_bool 0 (pnl topLoser)) eqn:Ep; [discriminate|].
  set (w1 := {| cycleCount := cycleCount w + 1;
                recentWinners := recentWinners w;
                lastRecipient := lastRecipient w;
                submitted := submitted w |}).
  destruct (claimFees cfg net w1) as [[solAvailable|e] w2] eqn:Ec;
    [|discriminate].
  destruct (claimFees_framed _ _ _ _ _ Ec) as [c2 m2 _ _].
  destruct (Qle_bool solAvailable 0); [discriminate|].
  destruct (buyTokens net solAvailable w2) as [[tokensReceived|e] w3] eqn:Eb;
    [|discriminate].
  destruct (buyTokens_framed _ _ _ _ _ Eb) as [c3 m3 _ _].
  destruct (tokensReceived =? 0); [discriminate|].
  destruct (distribute_spec cfg net (wallet topLoser) tokensReceived w3)
    as (w4 & log & Ed & c4 & m4 & _).
  rewrite Ed.
  destruct (sendOutcome net); [destruct (burnOutcome net)|];
    try discriminate.
  intros [= <- <-]. exists topLoser, rest.
  split; [reflexivity|]. split; [reflexivity|].
  split; [apply Qle_bool_false, Ep|]. cbn.
  rewrite c4, c3, c2, m4, m3, m2. cbn.
  repeat split. eexists _, _. reflexivity.
Qed.

(** X15. The recipient of a completed cycle is the wallet of the first
    ranked holder, the head of the list the ranker returned: its pnl is
    negative and no ranked holder has a lower one; it is not an excluded
    address, not the bot's wallet and not on cooldown at this cycle; and
    it is what [lastRecipient] names afterwards. *)
Theorem recipient_is_first_ranked cfg bot conn net w r w' :
  runCycle cfg bot conn net w = (Ok (CycleComplete r), w') ->
  exists topLoser rest,
    getHolders cfg bot (recentWinners w) conn (Some (cycleCount w + 1))
    = Ok (topLoser :: rest) /\
    wallet topLoser = r /\ (pnl topLoser < 0)%Q /\
    (forall h, In h rest -> (pnl topLoser <= pnl h)%Q) /\
    (r ∉ EXCLUDED) /\ r <> bot /\
    isOnCooldown (recentWinners w) r (cycleCount w + 1) = false /\
    (lr_wallet <$> lastRecipient w') = Some r.
Proof.
  intros H.
  destruct (runCycle_complete_inv _ _ _ _ _ _ _ H)
    as (top & rest & Eh & Er & Hp & _ & _ & amount & burnTx & El).
  exists top, rest. split; [exact Eh|].
  split; [exact Er|]. split; [exact Hp|].
  split.
  { intros h Hh.
    apply (ascending_head pnl top rest
             (getHolders_sorted _ _ _ _ _ _ Eh)).
    right. exact Hh. }
  destruct (getHolders_accounts _ _ _ _ _ _ Eh) as (accounts & Ea).
  destruct (ranked_holder_origin _ _ _ _ _ _ _ top Ea Eh)
    as (Hex & Hbot & _); [left; reflexivity|].
  rewrite Er in Hex, Hbot. split; [exact Hex|]. split; [exact Hbot|].
  split; [|rewrite El; reflexivity].
  assert (Hin : In top (top :: rest)) by (left; reflexivity).
  apply (In_getHolders _ _ _ _ _ _ _ _ Ea Eh) in Hin as [_ He].
  unfold isEligible in He. destruct (Qltb _ _); [discriminate|].
  rewrite Er in He. destruct (isOnCooldown _ _ _); [discriminate|reflexivity].
Qed.

Lemma recipient_is_first_ranked_witness :
  exists topLoser rest,
    getHolders sampleConfig "" (recentWinners startWorld)
      (sampleConn (Ok (Some (1 # 100)%Q))) (Some (cycleCount startWorld + 1))
    = Ok (topLoser :: rest) /\
    wallet topLoser = "alice".
Proof.
  destruct (recipient_is_first_ranked sampleConfig ""
              (sampleConn (Ok (Some (1 # 100)%Q)))
              (sampleNet None 112000000 (Ok "sigSend")) startWorld "alice"
              (snd (runCycle sampleConfig ""
                      (sampleConn (Ok (Some (1 # 100)%Q)))
                      (sampleNet None 112000000 (Ok "sigSend")) startWorld)))
    as (top & rest & E & Ew & _).
  - vm_compute. reflexivity.
  - exists top, rest. split; [exact E | exact Ew].
Defined.

(** ** Cycle after cycle *)

(** How one cycle changes the cooldown map. *)
Lemma runCycle_winners cfg bot conn net w :
  cycleCount (snd (runCycle cfg bot conn net w)) = cycleCount w + 1 /\
  (recentWinners (snd (runCycle cfg bot conn net w)) = recentWinners w
   \/ exists r,
        fst (runCycle cfg bot conn net w) = Ok (CycleComplete r) /\
        recentWinners (snd (runCycle cfg bot conn net w))
        = recordWinner (recentWinners w) r (cycleCount w + 1)).
Proof.
  destruct (runCycle_spec cfg bot conn net w)
    as (out & w' & E & pre & Hc & _ & H).
  rewrite E. cbn [fst snd]. split; [exact Hc|].
  destruct H as [(_ & Hm & _)|(r & total & log & _ & _ & H)];
    [left; exact Hm|].
  destruct (sendOutcome net); [destruct (burnOutcome net)|];
    try (left; apply H).
  right. exists r. destruct H as (-> & Hm). split; [reflexivity|exact Hm].
Qed.

Lemma cooling_wallet_does_not_win cfg bot conn net w r k :
  recentWinners w !! r = Some k ->
  k <> 0 ->
  cycleCount w + 1 - k <= COOLDOWN_CYCLES ->
  fst (runCycle cfg bot conn net w) <> Ok (CycleComplete r).
Proof.
  intros Hk Hk0 Hc Hwin.
  destruct (runCycle cfg bot conn net w) as [out w'] eqn:E.
  cbn [fst] in Hwin. subst out.
  destruct (runCycle_complete_inv _ _ _ _ _ _ _ E)
    as (top & rest & Eh & Er & _).
  destruct (getHolders_accounts _ _ _ _ _ _ Eh) as (accounts & Ea).
  assert (Hin : In top (top :: rest)) by (left; reflexivity).
  apply (In_getHolders _ _ _ _ _ _ _ _ Ea Eh) in Hin as [_ He].
  unfold isEligible in He. destruct (Qltb _ _); [discriminate|].
  rewrite Er in He. unfold isOnCooldown in He. rewrite Hk in He.
  cbn [falsy] in He.
  destruct (Z.eqb_spec k 0) as [E0|_]; [contradiction|].
  destruct (Z.leb_spec (cycleCount w + 1 - k) COOLDOWN_CYCLES);
    [discriminate|lia].
Qed.

(** X16. A wallet that wins a cycle does not win either of the next two
    cycles, whatever the ledger, the price and the venues answer in
    them. The world the first cycle starts in is any world with a cycle
    counter that is not negative, as every world the bot reaches has. *)
Theorem winner_sits_out_two_cycles cfg bot w r
    conn1 net1 conn2 net2 conn3 net3 :
  0 <= cycleCount w ->
  fst (runCycle cfg bot conn1 net1 w) = Ok (CycleComplete r) ->
  let w1 := snd (runCycle cfg bot conn1 net1 w) in
  let w2 := snd (runCycle cfg bot conn2 net2 w1) in
  fst (runCycle cfg bot conn2 net2 w1) <> Ok (CycleComplete r) /\
  fst (runCycle cfg bot conn3 net3 w2) <> Ok (CycleComplete r).
Proof.
  intros Hc0 Hwin. cbv zeta.
  destruct (runCycle cfg bot conn1 net1 w) as [out1 w1] eqn:E1.
  cbn [fst snd] in *. subst out1.
  destruct (runCycle_complete_inv _ _ _ _ _ _ _ E1)
    as (_ & _ & _ & _ & _ & Hc1 & Hm1 & _).
  assert (Hk1 : recentWinners w1 !! r = Some (cycleCount w + 1)).
  { rewrite Hm1. unfold recordWinner. apply lookup_insert_eq. }
  assert (Hno2 : fst (runCycle cfg bot conn2 net2 w1)
                 <> Ok (CycleComplete r)).
  { eapply cooling_wallet_does_not_win; [exact Hk1|lia|].
    unfold COOLDOWN_CYCLES. lia. }
  split; [exact Hno2|].
  destruct (runCycle_winners cfg bot conn2 net2 w1) as (Hc2 & Hm2).
  eapply cooling_wallet_does_not_win with (k := cycleCount w + 1);
    [|lia|unfold COOLDOWN_CYCLES; lia].
  destruct Hm2 as [->|(r2 & Ewin2 & ->)]; [exact Hk1|].
  unfold recordWinner. rewrite lookup_insert_ne; [exact Hk1|].
  intros ->. exact (Hno2 Ewin2).
Qed.

Lemma winner_sits_out_two_cycles_witness :
  let conn := sampleConn (Ok (Some (1 # 100)%Q)) in
  let net := sampleNet None 112000000 (Ok "sigSend") in
  let w1 := snd (runCycle sampleConfig "" conn net startWorld) in
  let w2 := snd (runCycle sampleConfig "" conn net w1) in
  fst (runCycle sampleConfig "" conn net w1) <> Ok (CycleComplete "alice") /\
  fst (runCycle sampleConfig "" conn net w2) <> Ok (CycleComplete "alice").
Proof.
  cbv zeta.
  apply (winner_sits_out_two_cycles sampleConfig "" startWorld "alice"
           (sampleConn (Ok (Some (1 # 100)%Q)))
           (sampleNet None 112000000 (Ok "sigSend"))
           (sampleConn (Ok (Some (1 # 100)%Q)))
           (sampleNet None 112000000 (Ok "sigSend"))
           (sampleConn (Ok (Some (1 # 100)%Q)))
           (sampleNet None 112000000 (Ok "sigSend"))).
  - cbn. lia.
  - vm_compute. reflexivity.
Defined.

(** X17. Whatever happens in them, [n] cycles move the counter by [n]
    and only add to the log of submitted transactions: nothing
    submitted earlier is dropped or rewritten. *)
Theorem cycles_count_and_log_grow cfg bot ticks w :
  cycleCount (runCycles cfg bot ticks w)
  = cycleCount w + Z.of_nat (length ticks) /\
  exists new,
    submitted (runCycles cfg bot ticks w) = (submitted w ++ new)%list.
Proof.
  unfold runCycles. revert w.
  induction ticks as [|tick ticks IH]; intros w.
  - cbn. split; [lia|]. exists []. symmetry. apply app_nil_r.
  - cbn [fold_left length].
    destruct (runCycle_spec cfg bot (fst tick) (snd tick) w)
      as (out & w' & E & pre & Hc & _ & H).
    rewrite E. cbn [snd].
    destruct (IH w') as (IHc & new & IHs).
    split; [lia|].
    destruct H as [(_ & _ & _ & Hs)|(r & total & log & _ & Hs & _)];
      rewrite IHs, Hs, <- ?app_assoc; eexists; reflexivity.
Qed.

(** ** The interval between two cycles *)

(** X18. With a jitter that is not negative and a random number in
    [0, 1), the next interval lies within the jitter of the base
    interval; the upper end is never reached when the jitter is
    positive, and without jitter the interval is the base interval. *)
Theorem next_interval_within_jitter INTERVAL_SEC JITTER_SEC random :
  0 <= JITTER_SEC ->
  (0 <= random)%Q -> (random < 1)%Q ->
  INTERVAL_SEC * 1000 - JITTER_SEC * 1000
  <= getNextInterval INTERVAL_SEC JITTER_SEC random
  <= INTERVAL_SEC * 1000 + JITTER_SEC * 1000 /\
  (0 < JITTER_SEC ->
   getNextInterval INTERVAL_SEC JITTER_SEC random
   < INTERVAL_SEC * 1000 + JITTER_SEC * 1000).
Proof.
  intros Hj H0 H1. unfold getNextInterval. cbv zeta.
  set (j := JITTER_SEC * 1000).
  assert (Hj' : (0 <= inject_Z j)%Q).
  { change (inject_Z 0 <= inject_Z j)%Q. rewrite <- Zle_Qle. unfold j. lia. }
  assert (Hlo : 0 <= Qfloor (random * inject_Z j * 2)).
  { rewrite <- (Qfloor_Z 0). apply Qfloor_resp_le.
    change (inject_Z 0) with 0%Q. nra. }
  assert (Hhi : Qfloor (random * inject_Z j * 2) <= 2 * j).
  { rewrite <- (Qfloor_Z (2 * j)). apply Qfloor_resp_le.
    rewrite inject_Z_mult. change (inject_Z 2) with 2%Q. nra. }
  split; [lia|]. intros Hpos.
  assert (Hj'' : (0 < inject_Z j)%Q).
  { change (inject_Z 0 < inject_Z j)%Q. rewrite <- Zlt_Qlt. unfold j. lia. }
  assert (Hlt : Qfloor (random * inject_Z j * 2) < 2 * j).
  { rewrite Zlt_Qlt. eapply Qle_lt_trans; [apply Qfloor_le|].
    rewrite inject_Z_mult. change (inject_Z 2) with 2%Q. nra. }
  lia.
Qed.

Lemma next_interval_within_jitter_witness :
  298000 <= getNextInterval 300 2 (3 # 4) <= 302000.
Proof.
  apply (next_interval_within_jitter 300 2 (3 # 4)); [lia| |];
    reflexivity || discriminate.
Defined.

(** ** The configuration check *)

(** X19. [validate] accepts a configuration exactly when the private
    key and the token mint both have at least 32 characters: the two
    tests for a missing value add nothing to the two length tests. *)
Theorem validate_iff_long_enough PRIVATE_KEY cfg :
  validate PRIVATE_KEY cfg = Ok tt <->
  (32 <= String.length PRIVATE_KEY)%nat /\
  (32 <= String.length (TOKEN_MINT cfg))%nat.
Proof.
  unfold validate.
  destruct (String.eqb_spec PRIVATE_KEY "") as [->|_].
  { split; [discriminate|]. cbn. lia. }
  destruct (String.eqb_spec (TOKEN_MINT cfg) "") as [->|_].
  { split; [discriminate|]. cbn. lia. }
  destruct (Z.ltb_spec (Z.of_nat (String.length PRIVATE_KEY)) 32).
  { split; [discriminate|]. lia. }
  destruct (Z.ltb_spec (Z.of_nat (String.length (TOKEN_MINT cfg))) 32).
  { split; [discriminate|]. lia. }
  split; [lia|reflexivity].
Qed.

Lemma validate_iff_long_enough_witness :
  validate "4wTV1YmiEkRvAtNtsSGPtUrqRYQMe5SKy2uB4Jjaxnjf" sampleConfig
  = Ok tt.
Proof.
  apply (proj2 (validate_iff_long_enough
                  "4wTV1YmiEkRvAtNtsSGPtUrqRYQMe5SKy2uB4Jjaxnjf"
                  sampleConfig)).
  split; cbn; lia.
Defined.


(** ** Optional and failing inputs *)

Lemma filter_ext_In {A} (f g : A -> bool) (l : list A) :
  (forall x, In x l -> f x = g x) -> List.filter f l = List.filter g l.
Proof.
  induction l as [|x l IH]; intros H; [reflexivity|].
  cbn. rewrite (H x) by (left; reflexivity).
  rewrite IH; [reflexivity|]. intros y Hy. apply H. right. exact Hy.
Qed.

(** X20. Called without a cycle number, the ranker does not consult the
    cooldown map: it returns what it returns at any cycle when nobody
    has won yet. And the cooldown only removes records: whatever is
    ranked at a cycle under a cooldown map is ranked without a cycle
    number. *)
Theorem no_cycle_number_no_cooldown cfg bot m conn c :
  getHolders cfg bot m conn None = getHolders cfg bot ∅ conn (Some c) /\
  forall hs hs' h,
    getHolders cfg bot m conn (Some c) = Ok hs ->
    getHolders cfg bot m conn None = Ok hs' ->
    In h hs -> In h hs'.
Proof.
  assert (E : forall h, isEligible m None h = isEligible ∅ (Some c) h).
  { intros h. unfold isEligible, isOnCooldown. rewrite lookup_empty.
    reflexivity. }
  unfold getHolders.
  destruct (getParsedProgramAccounts conn) as [accounts|];
    [|split; [reflexivity|discriminate]].
  split.
  - rewrite (filter_ext_In (isEligible m None) (isEligible ∅ (Some c)));
      [reflexivity|]. intros h _. apply E.
  - intros hs hs' h [= <-] [= <-]. unfold byPnl.
    rewrite !(arraySort_In pnl), !filter_In. intros [Hs He].
    split; [exact Hs|]. unfold isEligible in *.
    destruct (Qltb _ _); [discriminate|reflexivity].
Qed.

Lemma no_cycle_number_no_cooldown_witness :
  exists hs hs',
    getHolders sampleConfig "" (recordWinner ∅ "alice" 1)
      (sampleConn (Ok (Some (1 # 100)%Q))) (Some 2) = Ok hs /\
    getHolders sampleConfig "" (recordWinner ∅ "alice" 1)
      (sampleConn (Ok (Some (1 # 100)%Q))) None = Ok hs' /\
    forall h, In h hs -> In h hs'.
Proof.
  eexists _, _. split; [reflexivity|]. split; [reflexivity|]. intros h.
  apply (proj2 (no_cycle_number_no_cooldown sampleConfig ""
                  (recordWinner ∅ "alice" 1)
                  (sampleConn (Ok (Some (1 # 100)%Q))) 2) _ _ h
           eq_refl eq_refl).
Defined.


(** X21. Off the bonding curve the fee claimer only reads: when the
    probe of the curve account fails, finds no account or finds one
    without data, the token is taken to have migrated, and claiming
    submits no transaction and leaves every global as it was. *)
Theorem claim_is_read_only_off_curve cfg net w :
  match bondingCurveProbe net with
  | Ok (Some a) => dataLength a <= 0
  | Ok None => True
  | Throw _ => True
  end ->
  isOnBondingCurve net = false /\ snd (claimFees cfg net w) = w.
Proof.
  intros H.
  assert (E : isOnBondingCurve net = false).
  { unfold isOnBondingCurve.
    destruct (bondingCurveProbe net) as [[a|]|]; try reflexivity.
    apply Z.ltb_ge. exact H. }
  split; [exact E|]. rewrite (claimFees_migrated _ _ _ E).
  destruct (getBalance net); reflexivity.
Qed.

Lemma claim_is_read_only_off_curve_witness :
  snd (claimFees sampleConfig (sampleNet None 112000000 (Ok "sigSend"))
         startWorld) = startWorld.
Proof.
  apply (claim_is_read_only_off_curve sampleConfig
           (sampleNet None 112000000 (Ok "sigSend")) startWorld).
  exact I.
Defined.
